(** * napalm_install_config: a shallow embedding of the Ansible module

    The module [napalm_install_config.py] is sequential glue: it resolves
    its parameters against an optional provider bundle, opens a NAPALM
    device, loads a candidate configuration, diffs it, then discards or
    commits it and closes the device.

    Python values are embedded as the inductive [value]; dictionaries
    ([module.params], the provider bundle) as stdpp's [gmap string value];
    the device, the driver registry and the file system as an abstract
    world on which every external call is [perform]ed and recorded in a
    trace together with its response; [module.fail_json] and
    [module.exit_json] as a terminal [Exit] (they raise [SystemExit], which
    [except Exception] does not catch). *)

From stdpp Require Import gmap strings list fin_maps.
From Stdlib Require Import ZArith.

Set Warnings "-register-all".

(** ** Python values *)

Inductive value : Type :=
  | VNone
  | VBool (b : bool)
  | VInt (z : Z)
  | VStr (s : string)
  | VList (l : list value)
  | VDict (d : gmap string value).

(** [bool(v)]: the truth value Python's [if], [and], [or] and [not] use. *)
Definition truthy (v : value) : bool :=
  match v with
  | VNone => false
  | VBool b => b
  | VInt z => negb (Z.eqb z 0)
  | VStr s => match s with EmptyString => false | String _ _ => true end
  | VList l => match l with [] => false | _ :: _ => true end
  | VDict d => match map_to_list d with [] => false | _ :: _ => true end
  end.

(** [v is None] and [v is False] (identity with the two singletons). *)
Definition is_None (v : value) : bool :=
  match v with VNone => true | _ => false end.

Definition is_False (v : value) : bool :=
  match v with VBool false => true | _ => false end.

(** [a or b] *)
Definition py_or (a b : value) : value := if truthy a then a else b.

(** [d.get(k)] and [d.get(k, None)] *)
Definition py_get (d : gmap string value) (k : string) : value :=
  default VNone (d !! k).

(** [type(v).__name__], as it appears in Python's error messages. *)
Definition type_name (v : value) : string :=
  match v with
  | VNone => "NoneType"
  | VBool _ => "bool"
  | VInt _ => "int"
  | VStr _ => "str"
  | VList _ => "list"
  | VDict _ => "dict"
  end.

(** The length [len(v)] reports, for the values that have one. *)
Definition len_of (v : value) : option nat :=
  match v with
  | VStr s => Some (String.length s)
  | VList l => Some (length l)
  | VDict d => Some (size d)
  | _ => None
  end.

(** ** The module's arguments

    [Args] is what the caller of the module may supply, typed as
    [argument_spec] declares it (lines 186-202); [None] is an argument the
    caller left out.  A parameter that is not declared is refused by
    [AnsibleModule] before [main]'s body runs, so nothing else can be
    supplied.  When the caller writes the alias [host], [AnsibleModule]
    stores it under [hostname] and leaves an entry [host] in
    [module.params] as well.  [main] never names that entry; only the loop
    of lines 229-231 reads and writes it, and only when the provider bundle
    has a key [host].  It is not modelled: what is stated about
    [module.params] key by key leaves the key [host] out. *)

Record Args : Type := {
  arg_hostname : option string;
  arg_username : option string;
  arg_password : option string;
  arg_provider : option (gmap string value);
  arg_timeout : option Z;
  arg_optional_args : option (gmap string value);
  arg_config_file : option string;
  arg_config : option string;
  arg_dev_os : option string;
  arg_commit_changes : bool;
  arg_replace_config : option bool;
  arg_diff_file : option string;
  arg_get_diffs : option bool;
  arg_archive_file : option string;
  arg_candidate_file : option string
}.

Definition of_str (o : option string) : value :=
  match o with Some s => VStr s | None => VNone end.

Definition of_dict (o : option (gmap string value)) : value :=
  match o with Some d => VDict d | None => VNone end.

(** [module.params] as [AnsibleModule(argument_spec=...)] builds it: one
    entry per declared parameter, with the declared default where the
    caller supplied nothing. *)
Definition AnsibleModule_params (a : Args) : gmap string value :=
  list_to_map [
    ("hostname", of_str (arg_hostname a));
    ("username", of_str (arg_username a));
    ("password", of_str (arg_password a));
    ("provider", of_dict (arg_provider a));
    ("timeout", VInt (default 60%Z (arg_timeout a)));
    ("optional_args", of_dict (arg_optional_args a));
    ("config_file", of_str (arg_config_file a));
    ("config", of_str (arg_config a));
    ("dev_os", of_str (arg_dev_os a));
    ("commit_changes", VBool (arg_commit_changes a));
    ("replace_config", VBool (default false (arg_replace_config a)));
    ("diff_file", of_str (arg_diff_file a));
    ("get_diffs", VBool (default true (arg_get_diffs a)));
    ("archive_file", of_str (arg_archive_file a));
    ("candidate_file", of_str (arg_candidate_file a))
  ].

(** ** Parameter resolution (lines 209 and 226-231) *)

(** Line 209: [provider = module.params["provider"] or {}].  The key is
    declared, so the subscript cannot fail; its value is a dict or [None]. *)
Definition provider_of (params : gmap string value) : gmap string value :=
  match py_get params "provider" with
  | VDict d => d
  | _ => ∅
  end.

(** Line 227: [provider["hostname"] = provider.get("hostname", None) or
    provider.get("host", None)]. *)
Definition allow_host (provider : gmap string value) : gmap string value :=
  <["hostname" := py_or (py_get provider "hostname") (py_get provider "host")]>
    provider.

(** When [module.params["provider"]] is a non-empty dict, [provider] is that
    very object, and the assignment of line 227 is visible through
    [module.params["provider"]] too; when it is [None] or empty, [provider]
    is a fresh dict and [module.params] is untouched. *)
Definition share_provider (params provider : gmap string value)
  : gmap string value :=
  if truthy (py_get params "provider")
  then <["provider" := VDict provider]> params
  else params.

(** Lines 230-231, the body of the loop for one [(param, pvalue)]. *)
Definition merge_param (param : string) (pvalue : value)
    (params : gmap string value) : gmap string value :=
  if negb (is_False (py_get params param))
  then <[param := py_or (py_get params param) pvalue]> params
  else params.

(** Lines 229-231.  A Python dict has one entry per key and each iteration
    touches that key's entry of [module.params] only, so the order in which
    [provider.items()] is visited does not show in the result
    ([merge_provider_lookup] below states it key by key). *)
Definition merge_provider (params provider : gmap string value)
  : gmap string value :=
  map_fold merge_param params provider.

(** [module.params] after lines 209-231. *)
Definition resolved_params (a : Args) : gmap string value :=
  let params := AnsibleModule_params a in
  let provider := allow_host (provider_of params) in
  merge_provider (share_provider params provider) provider.

(** The keys [argument_spec] declares. *)
Definition declared : list string :=
  ["hostname"; "username"; "password"; "provider"; "timeout";
   "optional_args"; "config_file"; "config"; "dev_os"; "commit_changes";
   "replace_config"; "diff_file"; "get_diffs"; "archive_file";
   "candidate_file"].

(** The provider bundle the caller supplied, [{}] when there is none. *)
Definition bundle (a : Args) : gmap string value :=
  default ∅ (arg_provider a).

(** ** Exceptions, external calls and outcomes *)

(** The exception classes [main] distinguishes or raises itself.  All are
    subclasses of [Exception]; [OtherException] stands for any other
    subclass of [Exception] a driver or the file system may raise. *)
Inductive exn_class : Type :=
  | KeyError
  | TypeError
  | AttributeError
  | ModuleImportError
  | OtherException.

Record exn : Type := Exn { exn_cls : exn_class; exn_str : string }.

(** Where a candidate configuration is loaded from: the keyword argument
    [filename=] or [config=] of the two load methods. *)
Inductive candidate_source : Type :=
  | filename_kw (v : value)
  | config_kw (v : value).

(** The calls [main] makes on its collaborators: the driver registry, the
    driver class, the device handle and the file system. *)
Inductive call : Type :=
  | get_network_driver (dev_os : value)
  | network_driver (hostname username password timeout optional_args : value)
  | device_open
  | device_get_config (retrieve : string)
  | device_load_replace_candidate (src : candidate_source)
  | device_load_merge_candidate (src : candidate_source)
  | device_compare_config
  | device_discard_config
  | device_commit_config (message : value)
  | device_close
  | file_write (filename content : value).

Inductive response : Type :=
  | Returned (v : value)
  | Raised (e : exn).

(** One entry of the trace: a call that was made and how it came back. *)
Record event : Type := Ev { ev_call : call; ev_response : response }.

(** The payload of [module.exit_json(changed=.., diff={"prepared": ..},
    msg=..)]. *)
Record result : Type := Result {
  changed : bool;
  diff_prepared : value;
  msg : value
}.

(** How the process ends when [AnsibleModule] ends it. *)
Inductive exit : Type :=
  | ExitJson (r : result)
  | FailJson (m : string).

(** How a piece of [main] ends: it falls through with a value, it raises an
    exception (which an enclosing [except Exception] catches), or the
    module exits ([SystemExit], which no handler of [main] catches). *)
Inductive outcome (A : Type) : Type :=
  | Ret (a : A)
  | Exc (e : exn)
  | Exit (x : exit).
Arguments Ret {A} a.
Arguments Exc {A} e.
Arguments Exit {A} x.

(** Which method an event is a call of, whatever its arguments. *)
Definition is_close (e : event) : bool :=
  match ev_call e with device_close => true | _ => false end.

Definition is_open (e : event) : bool :=
  match ev_call e with device_open => true | _ => false end.

Definition is_commit (e : event) : bool :=
  match ev_call e with device_commit_config _ => true | _ => false end.

Definition is_discard (e : event) : bool :=
  match ev_call e with device_discard_config => true | _ => false end.

Definition is_compare (e : event) : bool :=
  match ev_call e with device_compare_config => true | _ => false end.

Definition is_load (e : event) : bool :=
  match ev_call e with
  | device_load_replace_candidate _ | device_load_merge_candidate _ => true
  | _ => false
  end.

Definition is_file_write (e : event) : bool :=
  match ev_call e with file_write _ _ => true | _ => false end.

(** The connection attempt: instantiating the driver and opening it. *)
Definition is_connect (e : event) : bool :=
  match ev_call e with
  | network_driver _ _ _ _ _ | device_open => true
  | _ => false
  end.

(** [calls p t]: how many events of the trace [t] satisfy [p]. *)
Definition calls (p : event → bool) (t : list event) : nat :=
  length (filter (λ e, p e = true) t).

(** [s.startswith(p)] *)
Fixpoint starts_with (p s : string) : bool :=
  match p with
  | EmptyString => true
  | String a p' =>
      match s with
      | EmptyString => false
      | String b s' => Ascii.eqb a b && starts_with p' s'
      end
  end.

(** The run got as far as [device.close()]: it completed, or it failed
    with the message of line 335. *)
Definition reaches_close {A : Type} (o : outcome A) : bool :=
  match o with
  | Exit (ExitJson _) => true
  | Exit (FailJson m) => starts_with "cannot close device connection: " m
  | _ => false
  end.

(** The run got as far as the final action of lines 323-330: it completed,
    or it failed with the message of line 330 or of line 335. *)
Definition reaches_install {A : Type} (o : outcome A) : bool :=
  match o with
  | Exit (ExitJson _) => true
  | Exit (FailJson m) =>
      starts_with "cannot install config: " m
      || starts_with "cannot close device connection: " m
  | _ => false
  end.

(** [compare_config] was called and returned an empty diff. *)
Definition empty_diff_returned (t : list event) : Prop :=
  ∃ v, Ev device_compare_config (Returned v) ∈ t ∧ len_of v = Some 0.

(** A call that works on the candidate configuration. *)
Definition on_candidate (e : event) : bool :=
  is_load e || is_compare e || is_discard e || is_commit e.

(** The three connection parameters lines 256-259 insist on. *)
Definition identity_keys : list string := ["hostname"; "username"; "dev_os"].

(** The message of line 300. *)
Definition no_config_msg : string :=
  "You have to specify either config or config_file".

(** What the archive step of lines 283-288 leaves in the trace when it
    succeeds: nothing when [archive_file] is [None]; otherwise the running
    configuration has been fetched and its entry [running] written. *)
Definition archived (unset : bool) (t : list event) : Prop :=
  if unset then t = []
  else ∃ d c f v,
      t = [Ev (device_get_config "running") (Returned (VDict d));
           Ev (file_write f c) (Returned v)] ∧
      d !! "running" = Some c.

(** The trace of a run that has got through lines 266-288 and no further:
    the driver class looked up and instantiated, the session opened, the
    running configuration archived if [archive_file] is set, every call
    answered without an exception, and nothing else. *)
Definition session_ready (a : Args) (t : list event) : Prop :=
  ∃ dev_os hostname username password timeout optional_args cls dev v rest,
    t = Ev (get_network_driver dev_os) (Returned cls)
        :: Ev (network_driver hostname username password timeout
                 optional_args) (Returned dev)
        :: Ev device_open (Returned v) :: rest ∧
    archived (is_None (py_get (resolved_params a) "archive_file")) rest.

(** The message of line 207. *)
Definition no_napalm_msg : string := "the python module napalm is required".

(** The load is a replace, not a merge. *)
Definition is_replace (e : event) : bool :=
  match ev_call e with device_load_replace_candidate _ => true | _ => false end.

(** A call on the open session: any method of the device but [open]. *)
Definition on_device (e : event) : bool :=
  match ev_call e with
  | device_get_config _ | device_load_replace_candidate _
  | device_load_merge_candidate _ | device_compare_config
  | device_discard_config | device_commit_config _ | device_close => true
  | _ => false
  end.

(** The call came back without an exception. *)
Definition succeeded (e : event) : bool :=
  match ev_response e with Returned _ => true | Raised _ => false end.

(** The session is open before anything is asked of the device: the trace
    has no call on the device, or a successful [open] precedes them all. *)
Definition opened_first (t : list event) : Prop :=
  Forall (λ e, on_device e = false) t ∨
  ∃ t0 v t', t = t0 ++ Ev device_open (Returned v) :: t' ∧
             Forall (λ e, on_device e = false) t0.

(** The message prefix under which a failure of the call [c] is reported:
    that of the [except] clause around it (lines 269, 281, 288, 302, 314,
    321, 330, 335).  [save_to_file] is called in the archive steps and in
    the diff step, so a failed write is reported under either prefix. *)
Definition step_message (c : call) (m : string) : Prop :=
  match c with
  | get_network_driver _ => m = "Failed to import napalm driver: "
  | network_driver _ _ _ _ _ | device_open => m = "cannot connect to device: "
  | device_get_config _ => m = "cannot retrieve running config:"
  | device_load_replace_candidate _ | device_load_merge_candidate _ =>
      m = "cannot load config: "
  | device_compare_config => m = "cannot diff config: "
  | device_discard_config | device_commit_config _ =>
      m = "cannot install config: "
  | device_close => m = "cannot close device connection: "
  | file_write _ _ =>
      m = "cannot retrieve running config:" ∨ m = "cannot diff config: "
  end.

(** The outcome [o] is the report of the exception [e] raised by the call
    [c]: a [fail_json] with the step's prefix and [str(e)], or [e] itself
    propagating where [U] allows it. *)
Definition blamed {A : Type} (U : call → exn → Prop) (o : outcome A)
    (c : call) (e : exn) : Prop :=
  match o with
  | Ret _ => False
  | Exc e' => e' = e ∧ U c e
  | Exit (FailJson s) => ∃ m, step_message c m ∧ s = m +:+ exn_str e
  | Exit (ExitJson _) => False
  end.

(** Every call has succeeded, or every call but the last has and the
    failure of the last is what the outcome reports. *)
Definition fail_stop {A : Type} (U : call → exn → Prop) (o : outcome A)
    (t : list event) : Prop :=
  Forall (λ e, succeeded e = true) t ∨
  ∃ t1 c e, t = t1 ++ [Ev c (Raised e)] ∧
            Forall (λ e, succeeded e = true) t1 ∧ blamed U o c e.

(** The one exception of a call that no handler of [main] catches: what
    [get_network_driver] raises other than [ModuleImportError]. *)
Definition uncaught (c : call) (e : exn) : Prop :=
  (∃ dev_os, c = get_network_driver dev_os) ∧
  exn_cls e ≠ ModuleImportError.

(** The call is the instantiation of the driver. *)
Definition is_driver (e : event) : bool :=
  match ev_call e with network_driver _ _ _ _ _ => true | _ => false end.

(** A trace predicate that holds of the empty trace and of a concatenation
    whenever it holds of both parts can be checked step by step. *)
Class Closed (P : list event → Prop) : Prop := {
  closed_nil : P [];
  closed_app t1 t2 : P t1 → P t2 → P (t1 ++ t2)
}.

(** Every file that is written holds a configuration the device has just
    returned: the write directly follows a successful [get_config(r)] and
    stores the entry [r] of its answer.  This is what the archive step and
    the candidate-archive step do; a diff written by the diff step follows
    [compare_config] instead. *)
Inductive fetch_writes : list event → Prop :=
  | fetch_writes_nil : fetch_writes []
  | fetch_writes_other e t :
      is_file_write e = false → fetch_writes t → fetch_writes (e :: t)
  | fetch_writes_pair r d c f resp t :
      d !! r = Some c →
      fetch_writes t →
      fetch_writes (Ev (device_get_config r) (Returned (VDict d))
                      :: Ev (file_write f c) resp :: t).

(** Every file that is written holds what the device has just answered:
    the entry [r] of a successful [get_config(r)], or the value a
    successful [compare_config] returned, written by the call that
    directly follows. *)
Inductive saved_from_device : list event → Prop :=
  | saved_nil : saved_from_device []
  | saved_other e t :
      is_file_write e = false → saved_from_device t →
      saved_from_device (e :: t)
  | saved_config r d c f resp t :
      d !! r = Some c →
      saved_from_device t →
      saved_from_device (Ev (device_get_config r) (Returned (VDict d))
                           :: Ev (file_write f c) resp :: t)
  | saved_diff v f resp t :
      saved_from_device t →
      saved_from_device (Ev device_compare_config (Returned v)
                           :: Ev (file_write f v) resp :: t).

(** ** A lab device and sample invocations *)

Definition lab_configs : gmap string value :=
  {[ "running" := VStr "hostname lab";
     "candidate" := VStr "hostname lab-new" ]}.

(** A device on which everything succeeds, except that loading a candidate
    answers [load] and [compare_config] answers [diff]. *)
Definition lab_device (load diff : response) (c : call) (w : unit)
  : response * unit :=
  (match c with
   | device_get_config _ => Returned (VDict lab_configs)
   | device_load_replace_candidate _ | device_load_merge_candidate _ => load
   | device_compare_config => diff
   | _ => Returned VNone
   end, w).

Definition done_ok : response := Returned VNone.

(** No environment variable and no [~] in any path of the samples. *)
Definition no_expansion (s : string) : string := s.

(** An invocation for host [r1], device OS [ios], with the arguments that
    vary between the samples. *)
Definition invocation (username config : option string)
    (commit_changes : bool) (replace_config get_diffs : option bool)
    (diff_file archive_file : option string)
    (provider : option (gmap string value)) : Args := {|
  arg_hostname := Some "r1";
  arg_username := username;
  arg_password := None;
  arg_provider := provider;
  arg_timeout := None;
  arg_optional_args := None;
  arg_config_file := None;
  arg_config := config;
  arg_dev_os := Some "ios";
  arg_commit_changes := commit_changes;
  arg_replace_config := replace_config;
  arg_diff_file := diff_file;
  arg_get_diffs := get_diffs;
  arg_archive_file := archive_file;
  arg_candidate_file := None
|}.

(** A bundle that carries nothing but a commit comment. *)
Definition comment_bundle : gmap string value :=
  {[ "commit_comment" := VStr "install x" ]}.

(** The scenario of the specification: [commit_changes=true],
    [replace_config=false], [config="set x true"], [get_diffs=true]; and
    the same with a commit comment in a provider bundle. *)
Definition scenario : Args :=
  invocation (Some "admin") (Some "set x true") true (Some false) (Some true)
    None None None.

Definition scenario_commented : Args :=
  invocation (Some "admin") (Some "set x true") true (Some false) (Some true)
    None None (Some comment_bundle).

(** A bundle that tries to set the three parameters that have a default. *)
Definition defaults_bundle : gmap string value :=
  {[ "timeout" := VInt 10; "get_diffs" := VBool false;
     "replace_config" := VBool true ]}.


(** One of the three identity parameters is [None] after resolution. *)
Definition identity_unset (a : Args) : bool :=
  is_None (py_get (resolved_params a) "hostname")
  || is_None (py_get (resolved_params a) "username")
  || is_None (py_get (resolved_params a) "dev_os").

(** What a run shows of the check of lines 256-259. *)
Definition identity_checked (a : Args) (o : outcome unit) (t : list event)
  : Prop :=
  (∀ k, k ∈ identity_keys →
        o = Exit (FailJson (k +:+ " is required")) →
        is_None (py_get (resolved_params a) k) = true ∧ t = []) ∧
  (identity_unset a = true →
   t = [] ∧
   (o = Exit (FailJson no_napalm_msg) ∨ (∃ e, o = Exc e) ∨
    ∃ k, k ∈ identity_keys ∧
         is_None (py_get (resolved_params a) k) = true ∧
         o = Exit (FailJson (k +:+ " is required")))).

Section Workflow.

(** The world outside the process: the state of the device, the registry
    and the file system, and how each call answers and changes it. *)
Context {W : Type}.
Variable perform_call : call → W → response * W.

(** [os.path.expandvars] and [os.path.expanduser] on strings. *)
Variable expandvars expanduser : string → string.

(** *** The monad: world passing, a trace, and three ways to end *)

Definition M (A : Type) : Type := W → outcome A * W * list event.

#[local] Instance M_ret : MRet M := λ A a w, (Ret a, w, []).

#[local] Instance M_bind : MBind M := λ A B k m w,
  match m w with
  | (Ret a, w1, t1) =>
      match k a w1 with (o, w2, t2) => (o, w2, t1 ++ t2) end
  | (Exc e, w1, t1) => (Exc e, w1, t1)
  | (Exit x, w1, t1) => (Exit x, w1, t1)
  end.

Definition raise {A : Type} (e : exn) : M A := λ w, (Exc e, w, []).

(** [module.fail_json(msg=m)] and [module.exit_json(...)] *)
Definition fail_json {A : Type} (m : string) : M A :=
  λ w, (Exit (FailJson m), w, []).

Definition exit_json {A : Type} (r : result) : M A :=
  λ w, (Exit (ExitJson r), w, []).

(** A call on a collaborator: the world answers, the trace records it. *)
Definition perform (c : call) : M value := λ w,
  match perform_call c w with
  | (Returned v, w') => (Ret v, w', [Ev c (Returned v)])
  | (Raised e, w') => (Exc e, w', [Ev c (Raised e)])
  end.

(** [try: body  except Exception as e: handler e] *)
Definition try_except {A : Type} (body : M A) (handler : exn → M A) : M A :=
  λ w,
  match body w with
  | (Exc e, w1, t1) =>
      match handler e w1 with (o, w2, t2) => (o, w2, t1 ++ t2) end
  | r => r
  end.

(** [try: body  except ModuleImportError as e: handler e] *)
Definition try_except_import {A : Type} (body : M A) (handler : exn → M A)
  : M A := λ w,
  match body w with
  | (Exc (Exn ModuleImportError s), w1, t1) =>
      match handler (Exn ModuleImportError s) w1 with
      | (o, w2, t2) => (o, w2, t1 ++ t2)
      end
  | r => r
  end.

(** [if c: body] with nothing to do otherwise. *)
Definition when (c : bool) (body : M unit) : M unit :=
  if c then body else mret tt.

(** *** Python operations that may raise *)

(** [d[k]] on a dict. *)
Definition subscript (d : gmap string value) (k : string) : M value :=
  match d !! k with
  | Some v => mret v
  | None => raise (Exn KeyError ("'" +:+ k +:+ "'"))
  end.

(** [v[k]] with a string key on an arbitrary value. *)
Definition subscript_value (v : value) (k : string) : M value :=
  match v with
  | VDict d => subscript d k
  | VStr _ => raise (Exn TypeError "string indices must be integers")
  | VList _ =>
      raise (Exn TypeError "list indices must be integers or slices, not str")
  | _ => raise (Exn TypeError
                  ("'" +:+ type_name v +:+ "' object is not subscriptable"))
  end.

(** [v.get(k)]: only a dict has the method. *)
Definition method_get (v : value) (k : string) : M value :=
  match v with
  | VDict d => mret (py_get d k)
  | _ => raise (Exn AttributeError
                  ("'" +:+ type_name v +:+ "' object has no attribute 'get'"))
  end.

(** [len(v)] *)
Definition py_len (v : value) : M nat :=
  match len_of v with
  | Some n => mret n
  | None => raise (Exn TypeError
                     ("object of type '" +:+ type_name v
                        +:+ "' has no len()"))
  end.

(** [f(arg)]: no value a parameter can hold is callable. *)
Definition py_call (f : value) (arg : value) : M value :=
  raise (Exn TypeError ("'" +:+ type_name f +:+ "' object is not callable")).

(** [os.path.expanduser(os.path.expandvars(v))] *)
Definition expand (v : value) : M value :=
  match v with
  | VStr s => mret (VStr (expanduser (expandvars s)))
  | _ => raise (Exn TypeError
                  ("expected str, bytes or os.PathLike object, not "
                     +:+ type_name v))
  end.

(** [if v: v = os.path.expanduser(os.path.expandvars(v))] (lines 247-254) *)
Definition expand_if_set (v : value) : M value :=
  if truthy v then expand v else mret v.

(** [save_to_file] (lines 179-181): open for writing, then write. *)
Definition save_to_file (content filename : value) : M unit :=
  perform (file_write filename content);; mret tt.

(** *** The steps of [main] *)

(** Lines 211-224.  The loop registers secrets with
    [module.no_log_values], which only filters what [AnsibleModule]
    prints and is not tracked here; what is kept is that
    [provider["optional_args"].get] and
    [module.params["optional_args"].get] are evaluated when the dict
    entry is truthy, and raise when it is not a dict. *)
Definition no_log_param (provider params : gmap string value)
    (param : string) : M unit :=
  when (truthy (py_get provider "optional_args"))
    (method_get (py_get provider "optional_args") param;; mret tt);;
  when (truthy (py_get params "optional_args"))
    (method_get (py_get params "optional_args") param;; mret tt).

Definition no_log_values (provider params : gmap string value) : M unit :=
  no_log_param provider params "password";;
  no_log_param provider params "secret".

(** Lines 256-259: the loop over [argument_check.items()]. *)
Fixpoint argument_check (items : list (string * value)) : M unit :=
  match items with
  | [] => mret tt
  | (key, val) :: rest =>
      when (is_None val) (fail_json (key +:+ " is required"));;
      argument_check rest
  end.

(** Lines 266-269. *)
Definition driver_step (dev_os : value) : M unit :=
  try_except_import
    (perform (get_network_driver dev_os);; mret tt)
    (λ e, fail_json ("Failed to import napalm driver: " +:+ exn_str e)).

(** Lines 271-281. *)
Definition connect_step
    (hostname username password timeout optional_args : value) : M unit :=
  try_except
    (perform (network_driver hostname username password timeout
                optional_args);;
     perform device_open;; mret tt)
    (λ e, fail_json ("cannot connect to device: " +:+ exn_str e)).

(** Lines 283-288. *)
Definition archive_step (archive_file : value) : M unit :=
  try_except
    (when (negb (is_None archive_file))
       (r ← perform (device_get_config "running");
        running_config ← subscript_value r "running";
        save_to_file running_config archive_file))
    (λ e, fail_json ("cannot retrieve running config:" +:+ exn_str e)).

(** Lines 290-302.  The [fail_json] of line 300 is inside the [try]; it
    exits the module and the handler of line 301 does not see it. *)
Definition load_step (replace_config config_file config : value) : M unit :=
  try_except
    (if truthy replace_config && truthy config_file then
       perform (device_load_replace_candidate (filename_kw config_file));;
       mret tt
     else if truthy replace_config && truthy config then
       perform (device_load_replace_candidate (config_kw config));; mret tt
     else if negb (truthy replace_config) && truthy config_file then
       perform (device_load_merge_candidate (filename_kw config_file));;
       mret tt
     else if negb (truthy replace_config) && truthy config then
       perform (device_load_merge_candidate (config_kw config));; mret tt
     else
       fail_json "You have to specify either config or config_file")
    (λ e, fail_json ("cannot load config: " +:+ exn_str e)).

(** Lines 304-314: the step leaves [changed] and [diff] behind. *)
Definition diff_step (get_diffs diff_file : value) : M (bool * value) :=
  try_except
    ('(changed, diff) ←
       (if truthy get_diffs then
          diff ← perform device_compare_config;
          n ← py_len diff;
          mret (bool_decide (0 < n), diff)
        else mret (true, VNone));
     when (negb (is_None diff_file) && truthy get_diffs)
       (save_to_file diff diff_file);;
     mret (changed, diff))
    (λ e, fail_json ("cannot diff config: " +:+ exn_str e)).

(** Lines 316-321. *)
Definition candidate_step (candidate_file : value) : M unit :=
  try_except
    (when (negb (is_None candidate_file))
       (r ← perform (device_get_config "candidate");
        running_config ← subscript_value r "candidate";
        save_to_file running_config candidate_file))
    (λ e, fail_json ("cannot retrieve running config:" +:+ exn_str e)).

(** Lines 323-330.  The argument of [commit_config] is
    [message("commit_comment")]: the parameter value is called before the
    device method is. *)
Definition install_step (check_mode : bool) (commit_changes : value)
    (changed : bool) (message : value) : M unit :=
  try_except
    (if check_mode || negb (truthy commit_changes) then
       perform device_discard_config;; mret tt
     else
       when changed
         (comment ← py_call message (VStr "commit_comment");
          perform (device_commit_config comment);; mret tt))
    (λ e, fail_json ("cannot install config: " +:+ exn_str e)).

(** Lines 332-335. *)
Definition close_step : M unit :=
  try_except
    (perform device_close;; mret tt)
    (λ e, fail_json ("cannot close device connection: " +:+ exn_str e)).

(** Lines 283-337: everything after the session is open. *)
Definition session (check_mode : bool)
    (config_file config commit_changes replace_config diff_file get_diffs
       archive_file candidate_file message : value) : M unit :=
  archive_step archive_file;;
  load_step replace_config config_file config;;
  '(changed, diff) ← diff_step get_diffs diff_file;
  candidate_step candidate_file;;
  install_step check_mode commit_changes changed message;;
  close_step;;
  exit_json (Result changed diff diff).

(** Lines 247-337, on the values lines 233-246 have read. *)
Definition proceed (check_mode : bool) (params : gmap string value)
    (hostname username dev_os password timeout config_file config
       commit_changes replace_config diff_file get_diffs archive_file
       candidate_file message : value) : M unit :=
  config_file ← expand_if_set config_file;
  diff_file ← expand_if_set diff_file;
  archive_file ← expand_if_set archive_file;
  candidate_file ← expand_if_set candidate_file;
  argument_check
    [("hostname", hostname); ("username", username); ("dev_os", dev_os)];;
  optional_args ← subscript params "optional_args";
  let optional_args :=
    if is_None optional_args then VDict ∅ else optional_args in
  driver_step dev_os;;
  connect_step hostname username password timeout optional_args;;
  session check_mode config_file config commit_changes replace_config
    diff_file get_diffs archive_file candidate_file message.

(** Lines 233-337, on the resolved [module.params]. *)
Definition run_resolved (check_mode : bool) (params : gmap string value)
  : M unit :=
  hostname ← subscript params "hostname";
  username ← subscript params "username";
  dev_os ← subscript params "dev_os";
  password ← subscript params "password";
  timeout ← subscript params "timeout";
  config_file ← subscript params "config_file";
  config ← subscript params "config";
  commit_changes ← subscript params "commit_changes";
  replace_config ← subscript params "replace_config";
  diff_file ← subscript params "diff_file";
  get_diffs ← subscript params "get_diffs";
  archive_file ← subscript params "archive_file";
  candidate_file ← subscript params "candidate_file";
  message ← subscript params "commit_comment";
  proceed check_mode params hostname username dev_os password timeout
    config_file config commit_changes replace_config diff_file get_diffs
    archive_file candidate_file message.

(** [main] (lines 184-337).  [napalm_found] is the module-level flag of
    lines 169-176, [check_mode] is [module.check_mode]. *)
Definition main (napalm_found : bool) (a : Args) (check_mode : bool)
  : M unit :=
  let params := AnsibleModule_params a in
  when (negb napalm_found)
    (fail_json "the python module napalm is required");;
  let provider := provider_of params in
  no_log_values provider params;;
  let provider := allow_host provider in
  let params := share_provider params provider in
  let params := merge_provider params provider in
  run_resolved check_mode params.

(** What an invocation leaves behind: how it ended and what it called. *)
Definition run (napalm_found : bool) (a : Args) (check_mode : bool) (w : W)
  : outcome unit * list event :=
  match main napalm_found a check_mode w with (o, _, t) => (o, t) end.

(** *** Statements about runs *)

(** [post m Q]: however the world answers, [m] ends with an outcome and
    a trace that satisfy [Q]. *)
Definition post {A : Type} (m : M A) (Q : outcome A → list event → Prop)
  : Prop :=
  ∀ w, Q (m w).1.1 (m w).2.

(** [sat P X R m]: the trace of [m] satisfies [P]; if [m] falls through,
    its value satisfies [R]; if it exits the module, the exit satisfies
    [X]. *)
Definition sat {A : Type} (P : list event → Prop) (X : exit → Prop)
    (R : A → Prop) (m : M A) : Prop :=
  post m (λ o t,
    P t ∧ match o with Ret a => R a | Exc _ => True | Exit x => X x end).

(** [framed P X Q]: [Q] is met by a run that stops, with a trace in [P],
    on an exit in [X] or on an exception, and [Q] survives a prefix of
    the trace that is in [P]. *)
Definition framed {A : Type} (P : list event → Prop) (X : exit → Prop)
    (Q : outcome A → list event → Prop) : Prop :=
  (∀ t x, P t → X x → Q (Exit x) t) ∧
  (∀ t e, P t → Q (Exc e) t) ∧
  (∀ t1 t2 o, P t1 → Q o t2 → Q o (t1 ++ t2)).

(** ** The rules of [post] and [sat] *)

Lemma post_mono {A : Type} (m : M A) (Q Q' : outcome A → list event → Prop) :
  post m Q → (∀ o t, Q o t → Q' o t) → post m Q'.
Proof. intros Hm HQ w. apply HQ, Hm. Qed.

Lemma post_ext {A : Type} (m m' : M A) Q :
  (∀ w, m w = m' w) → post m' Q → post m Q.
Proof. intros Heq Hm w. rewrite Heq. apply Hm. Qed.

Lemma post_ret {A : Type} (a : A) (Q : outcome A → list event → Prop) :
  Q (Ret a) [] → post (mret a) Q.
Proof. intros HQ w. exact HQ. Qed.

Lemma post_raise {A : Type} (e : exn) (Q : outcome A → list event → Prop) :
  Q (Exc e) [] → post (raise e) Q.
Proof. intros HQ w. exact HQ. Qed.

Lemma post_fail_json {A : Type} (m : string)
    (Q : outcome A → list event → Prop) :
  Q (Exit (FailJson m)) [] → post (fail_json m) Q.
Proof. intros HQ w. exact HQ. Qed.

Lemma post_exit_json {A : Type} (r : result)
    (Q : outcome A → list event → Prop) :
  Q (Exit (ExitJson r)) [] → post (exit_json r) Q.
Proof. intros HQ w. exact HQ. Qed.

Lemma post_perform (c : call) (Q : outcome value → list event → Prop) :
  (∀ v, Q (Ret v) [Ev c (Returned v)]) →
  (∀ e, Q (Exc e) [Ev c (Raised e)]) →
  post (perform c) Q.
Proof.
  intros Hv He w. unfold perform.
  destruct (perform_call c w) as [[v|e] w']; simpl; auto.
Qed.

Lemma post_bind {A B : Type} (m : M A) (k : A → M B)
    (Q : outcome B → list event → Prop) :
  post m (λ o t,
    match o with
    | Ret a => post (k a) (λ o' t', Q o' (t ++ t'))
    | Exc e => Q (Exc e) t
    | Exit x => Q (Exit x) t
    end) →
  post (m ≫= k) Q.
Proof.
  intros Hm w. specialize (Hm w). unfold mbind, M_bind.
  destruct (m w) as [[[a|e|x] w1] t1]; simpl in *; auto.
  specialize (Hm w1). destruct (k a w1) as [[o w2] t2]. exact Hm.
Qed.

Lemma post_try {A : Type} (body : M A) (handler : exn → M A)
    (Q : outcome A → list event → Prop) :
  post body (λ o t,
    match o with
    | Exc e => post (handler e) (λ o' t', Q o' (t ++ t'))
    | Ret a => Q (Ret a) t
    | Exit x => Q (Exit x) t
    end) →
  post (try_except body handler) Q.
Proof.
  intros Hm w. specialize (Hm w). unfold try_except.
  destruct (body w) as [[[a|e|x] w1] t1]; simpl in *; auto.
  specialize (Hm w1). destruct (handler e w1) as [[o w2] t2]. exact Hm.
Qed.

Lemma post_try_import {A : Type} (body : M A) (handler : exn → M A)
    (Q : outcome A → list event → Prop) :
  post body (λ o t,
    match o with
    | Exc (Exn ModuleImportError s) =>
        post (handler (Exn ModuleImportError s)) (λ o' t', Q o' (t ++ t'))
    | _ => Q o t
    end) →
  post (try_except_import body handler) Q.
Proof.
  intros Hm w. specialize (Hm w). unfold try_except_import.
  destruct (body w) as [[[a|[[] s]|x] w1] t1]; simpl in *; auto.
  specialize (Hm w1).
  destruct (handler (Exn ModuleImportError s) w1) as [[o w2] t2]. exact Hm.
Qed.

Lemma bind_ret_l {A B : Type} (a : A) (k : A → M B) w :
  (mret a ≫= k) w = k a w.
Proof.
  unfold mbind, M_bind, mret, M_ret. by destruct (k a w) as [[o w2] t2].
Qed.

Lemma bind_ext {A B : Type} (m : M A) (k k' : A → M B) w :
  (∀ a w', k a w' = k' a w') → (m ≫= k) w = (m ≫= k') w.
Proof.
  intros Hk. unfold mbind, M_bind.
  destruct (m w) as [[[a|e|x] w1] t1]; auto. by rewrite Hk.
Qed.

(** The trace predicates used below are closed. *)
#[local] Instance Forall_closed (p : event → Prop) : Closed (Forall p).
Proof. split; [constructor | intros; by apply Forall_app]. Qed.

#[local] Instance silent_closed : Closed (λ t : list event, t = []).
Proof. split; [done | by intros ?? -> ->]. Qed.

#[local] Instance any_closed : Closed (λ _ : list event, True).
Proof. by split. Qed.

#[local] Instance and_closed (P1 P2 : list event → Prop) :
  Closed P1 → Closed P2 → Closed (λ t, P1 t ∧ P2 t).
Proof.
  intros H1 H2. split; [split; apply closed_nil|].
  intros t1 t2 [??] [??]. split; by apply closed_app.
Qed.

Lemma fetch_writes_app t1 t2 :
  fetch_writes t1 → fetch_writes t2 → fetch_writes (t1 ++ t2).
Proof.
  induction 1; intros H2; simpl; [done| |].
  - apply fetch_writes_other; auto.
  - eapply fetch_writes_pair; eauto.
Qed.

#[local] Instance fetch_writes_closed : Closed fetch_writes.
Proof. split; [constructor | apply fetch_writes_app]. Qed.

Section Sat.
Context (P : list event → Prop) `{!Closed P} (X : exit → Prop).

Lemma sat_mono {A : Type} (R R' : A → Prop) (m : M A) :
  sat P X R m → (∀ a, R a → R' a) → sat P X R' m.
Proof.
  intros Hm HR. eapply post_mono; [exact Hm|].
  intros [a|e|x] t [? ?]; auto.
Qed.

Lemma sat_ret {A : Type} (R : A → Prop) (a : A) :
  R a → sat P X R (mret a).
Proof. intros. apply post_ret. split; [apply closed_nil | done]. Qed.

Lemma sat_raise {A : Type} (R : A → Prop) (e : exn) :
  sat P X R (raise e).
Proof. apply post_raise. split; [apply closed_nil | done]. Qed.

Lemma sat_fail_json {A : Type} (R : A → Prop) (m : string) :
  X (FailJson m) → sat P X R (fail_json m).
Proof. intros. apply post_fail_json. split; [apply closed_nil | done]. Qed.

Lemma sat_exit_json {A : Type} (R : A → Prop) (r : result) :
  X (ExitJson r) → sat P X R (exit_json r).
Proof. intros. apply post_exit_json. split; [apply closed_nil | done]. Qed.

Lemma sat_perform (c : call) :
  (∀ r, P [Ev c r]) → sat P X (λ _, True) (perform c).
Proof. intros Hc. apply post_perform; intros; split; auto. Qed.

Lemma sat_bind {A B : Type} (R : A → Prop) (R' : B → Prop)
    (m : M A) (k : A → M B) :
  sat P X R m → (∀ a, R a → sat P X R' (k a)) → sat P X R' (m ≫= k).
Proof.
  intros Hm Hk. apply post_bind. eapply post_mono; [exact Hm|].
  intros [a|e|x] t [Ht Ho]; [|done..].
  eapply post_mono; [exact (Hk a Ho)|].
  intros o' t' [Ht' Ho']. split; [by apply closed_app | done].
Qed.

Lemma sat_try {A : Type} (R : A → Prop) (body : M A)
    (handler : exn → M A) :
  sat P X R body → (∀ e, sat P X R (handler e)) →
  sat P X R (try_except body handler).
Proof.
  intros Hm Hh. apply post_try. eapply post_mono; [exact Hm|].
  intros [a|e|x] t [Ht Ho]; [done| |done].
  eapply post_mono; [exact (Hh e)|].
  intros o' t' [Ht' Ho']. split; [by apply closed_app | done].
Qed.

Lemma sat_try_import {A : Type} (R : A → Prop) (body : M A)
    (handler : exn → M A) :
  sat P X R body → (∀ e, sat P X R (handler e)) →
  sat P X R (try_except_import body handler).
Proof.
  intros Hm Hh. apply post_try_import. eapply post_mono; [exact Hm|].
  intros [a|[[] s]|x] t [Ht Ho]; try done.
  eapply post_mono; [exact (Hh _)|].
  intros o' t' [Ht' Ho']. split; [by apply closed_app | done].
Qed.

Lemma sat_when (R : unit → Prop) (c : bool) (body : M unit) :
  R tt → (c = true → sat P X R body) → sat P X R (when c body).
Proof. intros HR Hb. destruct c; [by apply Hb | by apply sat_ret]. Qed.

(** [message("commit_comment")] raises, so what would use its value is
    never run. *)
Lemma sat_py_call_bind {B : Type} (R : B → Prop) (f arg : value)
    (k : value → M B) :
  sat P X R (py_call f arg ≫= k).
Proof.
  eapply sat_bind with (R := λ _, False); [apply sat_raise | done].
Qed.
End Sat.

Lemma sat_and {A : Type} (P1 P2 : list event → Prop) (X1 X2 : exit → Prop)
    (R1 R2 : A → Prop) (m : M A) :
  sat P1 X1 R1 m → sat P2 X2 R2 m →
  sat (λ t, P1 t ∧ P2 t) (λ x, X1 x ∧ X2 x) (λ a, R1 a ∧ R2 a) m.
Proof.
  intros H1 H2 w. specialize (H1 w). specialize (H2 w).
  destruct (m w) as [[[a|e|x] w1] t1]; simpl in *; intuition.
Qed.

Lemma sat_weaken {A : Type} (P P' : list event → Prop) (X X' : exit → Prop)
    (R R' : A → Prop) (m : M A) :
  sat P X R m → (∀ t, P t → P' t) → (∀ x, X x → X' x) →
  (∀ a, R a → R' a) → sat P' X' R' m.
Proof.
  intros Hm HP HX HR. eapply post_mono; [exact Hm|].
  intros [a|e|x] t [? ?]; auto.
Qed.

(** ** Trace invariants of the whole of [main] *)

Ltac unfold_steps :=
  unfold main, run_resolved, proceed, session, no_log_values, no_log_param,
    driver_step, connect_step, archive_step, load_step, diff_step,
    candidate_step, install_step, close_step, save_to_file, expand_if_set,
    expand, py_len, method_get, subscript_value, subscript;
  cbn [argument_check].

Ltac closed :=
  lazymatch goal with
  | |- Closed _ => apply _
  | |- _ => idtac
  end.

Ltac sat_step :=
  lazymatch goal with
  | |- sat _ _ _ (py_call _ _ ≫= _) => apply sat_py_call_bind; closed
  | |- sat _ _ _ (_ ≫= _) =>
      eapply (sat_bind _ _ (λ _, True)); closed; [ | intros ? _]
  | |- sat _ _ _ (try_except _ _) => apply sat_try; closed; [ | intros ?]
  | |- sat _ _ _ (try_except_import _ _) =>
      apply sat_try_import; closed; [ | intros ?]
  | |- sat _ _ _ (when _ _) => apply sat_when; closed; [ | intros ?]
  | |- sat _ _ _ (mret _) => apply sat_ret; closed
  | |- sat _ _ _ (raise _) => apply sat_raise; closed
  | |- sat _ _ _ (fail_json _) => apply sat_fail_json; closed
  | |- sat _ _ _ (exit_json _) => apply sat_exit_json; closed
  | |- sat _ _ _ (perform _) => apply sat_perform; closed; intros ?
  | |- sat _ _ _ (if ?b then _ else _) => destruct b
  | |- sat _ _ _ (match ?x with _ => _ end) => destruct x
  end.

Ltac sat_auto := unfold_steps; repeat sat_step.

(** [commit_config] is never called: its argument cannot be evaluated. *)
Lemma main_never_commits napalm_found a check_mode :
  sat (Forall (λ e, is_commit e = false)) (λ _, True) (λ _, True)
    (main napalm_found a check_mode).
Proof.
  sat_auto; try done; by repeat constructor.
Qed.

(** ** Parameter resolution, key by key *)

Lemma py_get_Some (d : gmap string value) k v :
  d !! k = Some v → py_get d k = v.
Proof. unfold py_get. by intros ->. Qed.

Lemma is_False_eq v : is_False v = true → v = VBool false.
Proof. by destruct v as [|[]| | | |]. Qed.

Lemma py_get_False (d : gmap string value) k :
  py_get d k = VBool false → d !! k = Some (VBool false).
Proof. unfold py_get. destruct (d !! k); simpl; [by intros ->|done]. Qed.

Lemma merge_param_lookup_ne param pvalue params k :
  param ≠ k → merge_param param pvalue params !! k = params !! k.
Proof.
  intros. unfold merge_param.
  destruct (negb _); [by rewrite lookup_insert_ne|done].
Qed.

(** The loop of lines 229-231, read off one key at a time: a key the
    bundle does not have keeps its entry; a key it has gets
    [explicit or pvalue], unless the explicit value is [False]. *)
Lemma merge_provider_lookup params provider k :
  merge_provider params provider !! k =
    match provider !! k with
    | None => params !! k
    | Some pvalue =>
        if is_False (py_get params k) then params !! k
        else Some (py_or (py_get params k) pvalue)
    end.
Proof.
  revert k. unfold merge_provider.
  apply (map_fold_weak_ind (λ r (m : gmap string value), ∀ k,
    r !! k = match m !! k with
             | None => params !! k
             | Some pvalue =>
                 if is_False (py_get params k) then params !! k
                 else Some (py_or (py_get params k) pvalue)
             end)).
  - intros k. by rewrite lookup_empty.
  - intros i x m r Hi IH k. destruct (decide (i = k)) as [->|Hne].
    + rewrite lookup_insert_eq. specialize (IH k). rewrite Hi in IH.
      unfold merge_param, py_get. rewrite IH.
      destruct (is_False _); simpl; [done|by rewrite lookup_insert_eq].
    + rewrite lookup_insert_ne, merge_param_lookup_ne by done. apply IH.
Qed.

Lemma merge_provider_is_Some params provider k :
  is_Some (params !! k) → is_Some (merge_provider params provider !! k).
Proof.
  intros Hk. rewrite merge_provider_lookup.
  destruct (provider !! k); [|done]. by destruct (is_False _).
Qed.

Lemma share_provider_lookup_ne params provider k :
  k ≠ "provider" → share_provider params provider !! k = params !! k.
Proof.
  intros. unfold share_provider.
  destruct (truthy _); [by rewrite lookup_insert_ne|done].
Qed.

Lemma share_provider_is_Some params provider k :
  is_Some (params !! k) → is_Some (share_provider params provider !! k).
Proof.
  intros. unfold share_provider. destruct (truthy _); [|done].
  destruct (decide ("provider" = k)) as [<-|];
    [by rewrite lookup_insert_eq|by rewrite lookup_insert_ne].
Qed.

Lemma allow_host_lookup_ne provider k :
  k ≠ "hostname" → allow_host provider !! k = provider !! k.
Proof. intros. unfold allow_host. by rewrite lookup_insert_ne. Qed.

(** What [AnsibleModule] has put under each declared key. *)
Lemma params_declared a k :
  k ∈ declared → is_Some (AnsibleModule_params a !! k).
Proof.
  unfold declared. intros Hk. repeat (apply elem_of_cons in Hk as [->|Hk]);
    [eexists; vm_compute; reflexivity..|by apply elem_of_nil in Hk].
Qed.

Lemma params_undeclared a : AnsibleModule_params a !! "commit_comment" = None.
Proof. reflexivity. Qed.

Lemma provider_of_params a :
  provider_of (AnsibleModule_params a) = bundle a.
Proof.
  assert (AnsibleModule_params a !! "provider" = Some (of_dict (arg_provider a)))
    as H by (vm_compute; reflexivity).
  unfold provider_of, bundle, py_get. rewrite H.
  by destruct (arg_provider a).
Qed.

(** Every declared key is still there after the merge. *)
Lemma resolved_declared a k :
  k ∈ declared → is_Some (resolved_params a !! k).
Proof.
  intros. apply merge_provider_is_Some, share_provider_is_Some.
  by apply params_declared.
Qed.

Lemma resolved_lookup a k :
  k ≠ "provider" →
  resolved_params a !! k =
    match allow_host (bundle a) !! k with
    | None => AnsibleModule_params a !! k
    | Some pvalue =>
        if is_False (py_get (AnsibleModule_params a) k)
        then AnsibleModule_params a !! k
        else Some (py_or (py_get (AnsibleModule_params a) k) pvalue)
    end.
Proof.
  intros Hk. unfold resolved_params. cbv zeta.
  rewrite merge_provider_lookup, provider_of_params.
  unfold py_get. by rewrite share_provider_lookup_ne.
Qed.

(** An explicit boolean is final: [True] wins the [or], [False] is
    skipped by the guard of line 230. *)
Lemma resolved_bool a k b :
  k ≠ "provider" →
  AnsibleModule_params a !! k = Some (VBool b) →
  resolved_params a !! k = Some (VBool b).
Proof.
  intros Hk Hb. rewrite resolved_lookup by done. unfold py_get. rewrite Hb.
  destruct (allow_host _ !! k); [|done]. by destruct b.
Qed.

Lemma resolved_commit_changes a :
  resolved_params a !! "commit_changes" = Some (VBool (arg_commit_changes a)).
Proof. by apply resolved_bool. Qed.

Lemma resolved_get_diffs a :
  resolved_params a !! "get_diffs"
    = Some (VBool (default true (arg_get_diffs a))).
Proof. by apply resolved_bool. Qed.

Lemma resolved_replace_config a :
  resolved_params a !! "replace_config"
    = Some (VBool (default false (arg_replace_config a))).
Proof. by apply resolved_bool. Qed.

Lemma resolved_commit_comment a :
  resolved_params a !! "commit_comment" = bundle a !! "commit_comment".
Proof.
  rewrite resolved_lookup by done.
  rewrite allow_host_lookup_ne by done.
  by destruct (bundle a !! "commit_comment").
Qed.

Lemma truthy_dict (d : gmap string value) k v :
  d !! k = Some v → truthy (VDict d) = true.
Proof.
  intros Hk. simpl. destruct (map_to_list d) eqn:Hd; [|done].
  apply map_to_list_empty_iff in Hd. by rewrite Hd, lookup_empty in Hk.
Qed.

Lemma bundle_provider a k v :
  bundle a !! k = Some v →
  AnsibleModule_params a !! "provider" = Some (VDict (bundle a)).
Proof.
  unfold bundle. destruct (arg_provider a) as [d|] eqn:Hp; simpl.
  - intros _. unfold AnsibleModule_params. rewrite Hp. reflexivity.
  - by rewrite lookup_empty.
Qed.

(** When [module.params["provider"]] is a bundle with at least one key,
    it is the dict that line 227 modifies in place, and the loop leaves it
    there. *)
Lemma resolved_provider a k v :
  bundle a !! k = Some v →
  resolved_params a !! "provider" = Some (VDict (allow_host (bundle a))).
Proof.
  intros Hk. pose proof (bundle_provider a k v Hk) as Hp.
  assert (truthy (VDict (allow_host (bundle a))) = true) as Hah
    by (unfold allow_host; eapply (truthy_dict _ "hostname");
        apply lookup_insert_eq).
  assert (share_provider (AnsibleModule_params a) (allow_host (bundle a))
            !! "provider" = Some (VDict (allow_host (bundle a)))) as Hs.
  { unfold share_provider. rewrite (py_get_Some _ _ _ Hp).
    rewrite (truthy_dict _ _ _ Hk). apply lookup_insert_eq. }
  unfold resolved_params. cbv zeta.
  rewrite provider_of_params, merge_provider_lookup.
  rewrite (py_get_Some _ _ _ Hs), Hs.
  destruct (allow_host (bundle a) !! "provider"); [|done].
  unfold py_or. rewrite Hah. reflexivity.
Qed.

(** From here on the resolved parameters are used through the lemmas
    above only. *)
#[local] Opaque resolved_params.

(** C4 (as amended).  For every key [k] of the caller's provider bundle
    (the alias [host] apart, whose entry in [module.params] depends on how
    the caller spelled the host name): a truthy explicit value is the
    resolved value; an explicit [False] is the resolved value as well, the
    guard of line 230 skips the assignment and the bundle does not
    override it.  At the key [provider] the explicit value is the bundle
    itself, which line 227 has modified in place. *)
Theorem explicit_precedence a k pvalue :
  bundle a !! k = Some pvalue →
  k ≠ "host" →
  (k ≠ "provider" →
   truthy (py_get (AnsibleModule_params a) k) = true →
   resolved_params a !! k = Some (py_get (AnsibleModule_params a) k)) ∧
  (py_get (AnsibleModule_params a) k = VBool false →
   resolved_params a !! k = Some (VBool false)) ∧
  (k = "provider" →
   resolved_params a !! k = Some (VDict (allow_host (bundle a)))).
Proof.
  intros Hk _.
  assert (is_Some (allow_host (bundle a) !! k)) as [pv Hpv].
  { unfold allow_host. destruct (decide ("hostname" = k)) as [<-|Hne].
    - rewrite lookup_insert_eq. by eexists.
    - rewrite lookup_insert_ne by done. by eexists. }
  split; [|split].
  - intros Hp Ht. rewrite resolved_lookup, Hpv by done.
    destruct (is_False _) eqn:HF.
    + apply is_False_eq in HF. by rewrite HF in Ht.
    + unfold py_or. by rewrite Ht.
  - intros HF. destruct (decide (k = "provider")) as [->|Hp].
    + exfalso. unfold py_get in HF.
      rewrite (bundle_provider a _ _ Hk) in HF. discriminate HF.
    + rewrite resolved_lookup, Hpv, HF by done. simpl.
      by apply py_get_False.
  - intros ->. by apply (resolved_provider a "provider" pvalue).
Qed.


(** C10.  A caller who leaves [timeout], [get_diffs] and [replace_config]
    out gets the declared defaults 60, [True] and [False], whatever the
    provider bundle says about these keys. *)
Theorem defaults_win_over_provider a :
  arg_timeout a = None →
  arg_get_diffs a = None →
  arg_replace_config a = None →
  resolved_params a !! "timeout" = Some (VInt 60) ∧
  resolved_params a !! "get_diffs" = Some (VBool true) ∧
  resolved_params a !! "replace_config" = Some (VBool false).
Proof.
  intros Ht Hg Hr. repeat split.
  - rewrite resolved_lookup by done.
    assert (AnsibleModule_params a !! "timeout" = Some (VInt 60)) as ->
      by (unfold AnsibleModule_params; rewrite Ht; reflexivity).
    assert (py_get (AnsibleModule_params a) "timeout" = VInt 60) as ->
      by (unfold AnsibleModule_params; rewrite Ht; reflexivity).
    by destruct (allow_host _ !! "timeout").
  - by rewrite resolved_get_diffs, Hg.
  - by rewrite resolved_replace_config, Hr.
Qed.

(** ** Sequencing: a prefix that keeps an invariant, then the rest *)

Lemma post_prefix {A B : Type} (P : list event → Prop) (X : exit → Prop)
    (R : A → Prop) (Q : outcome B → list event → Prop)
    (m : M A) (k : A → M B) :
  framed P X Q →
  sat P X R m →
  (∀ a, R a → post (k a) Q) →
  post (m ≫= k) Q.
Proof.
  intros (HX & HE & HS) Hm Hk. apply post_bind.
  eapply post_mono; [exact Hm|].
  intros [a|e|x] t [Ht Ho]; [|by apply HE|by apply HX].
  eapply post_mono; [exact (Hk a Ho)|]. intros o' t' HQ. by apply HS.
Qed.

Lemma post_focal {A B : Type} (Q1 : outcome A → list event → Prop)
    (Q : outcome B → list event → Prop) (m : M A) (k : A → M B) :
  post m Q1 →
  (∀ o t, Q1 o t →
     match o with
     | Ret a => post (k a) (λ o' t', Q o' (t ++ t'))
     | Exc e => Q (Exc e) t
     | Exit x => Q (Exit x) t
     end) →
  post (m ≫= k) Q.
Proof.
  intros Hm HQ. apply post_bind. eapply post_mono; [exact Hm|]. exact HQ.
Qed.

Lemma post_and {A : Type} (Q1 Q2 : outcome A → list event → Prop) (m : M A) :
  post m Q1 → post m Q2 → post m (λ o t, Q1 o t ∧ Q2 o t).
Proof. intros H1 H2 w. split; [apply H1 | apply H2]. Qed.

Lemma post_run napalm_found a check_mode
    (Q : outcome unit → list event → Prop) :
  post (main napalm_found a check_mode) Q →
  ∀ w, Q (run napalm_found a check_mode w).1
         (run napalm_found a check_mode w).2.
Proof.
  intros H w. specialize (H w). unfold run.
  by destruct (main napalm_found a check_mode w) as [[o w'] t].
Qed.

Lemma sat_subscript (P : list event → Prop) `{!Closed P} (X : exit → Prop)
    (d : gmap string value) (k : string) :
  sat P X (λ v, d !! k = Some v) (subscript d k).
Proof.
  unfold subscript. destruct (d !! k); [by apply sat_ret|by apply sat_raise].
Qed.

Lemma sat_expand_if_set (P : list event → Prop) `{!Closed P}
    (X : exit → Prop) (v : value) :
  sat P X (λ v', truthy v = false → v' = v) (expand_if_set v).
Proof.
  unfold expand_if_set, expand. destruct (truthy v); [|by apply sat_ret].
  destruct v; first [by apply sat_ret | by apply sat_raise].
Qed.

Lemma main_unfold napalm_found a check_mode :
  main napalm_found a check_mode =
    (when (negb napalm_found)
       (fail_json "the python module napalm is required");;
     no_log_values (provider_of (AnsibleModule_params a))
       (AnsibleModule_params a);;
     run_resolved check_mode (resolved_params a)).
Proof. reflexivity. Qed.

Lemma calls_app p t1 t2 : calls p (t1 ++ t2) = calls p t1 + calls p t2.
Proof. unfold calls. by rewrite filter_app, length_app. Qed.

Lemma calls_none p t : Forall (λ e, p e = false) t → calls p t = 0.
Proof.
  unfold calls. induction 1 as [|e t He _ IH]; [done|].
  rewrite filter_cons_False; [done|]. by rewrite He.
Qed.

Ltac side :=
  solve [ exact I | reflexivity | repeat constructor
        | intros; cbv [no_config_msg no_napalm_msg]; simpl; discriminate ].

(** Peel the steps off the front of a sequence, as long as they only
    keep the invariant of [HF] (which [solver] shows); a parameter that
    is read is remembered. *)
Ltac peel HF solver :=
  cbv zeta;
  lazymatch goal with
  | |- post (subscript ?d ?k ≫= _) _ =>
      eapply (post_prefix _ _ (λ v, d !! k = Some v) _ _ _ HF);
      [apply sat_subscript; closed | intros ? ?]
  | |- post (expand_if_set ?v ≫= _) _ =>
      eapply (post_prefix _ _ (λ v', truthy v = false → v' = v) _ _ _ HF);
      [apply sat_expand_if_set; closed | intros ? ?]
  | |- post (_ ≫= _) _ =>
      eapply (post_prefix _ _ (λ _, True) _ _ _ HF);
      [solver | intros ? _]
  | |- post (match ?x with _ => _ end) _ => destruct x
  end.

(** ** C3: when the session is closed *)

Lemma close_frame :
  framed (Forall (λ e, is_close e = false))
    (λ x, reaches_close (Exit x : outcome unit) = false)
    (λ (o : outcome unit) t,
       calls is_close t = if reaches_close o then 1 else 0).
Proof.
  repeat split.
  - intros t x Ht Hx. rewrite Hx. by apply calls_none.
  - intros t e Ht. by apply calls_none.
  - intros t1 t2 o Ht HQ. rewrite calls_app, HQ. by rewrite calls_none.
Qed.

Lemma close_step_post r :
  post (close_step;; exit_json r)
    (λ (o : outcome unit) t,
       calls is_close t = if reaches_close o then 1 else 0).
Proof.
  unfold close_step. apply post_bind, post_try, post_bind, post_perform.
  - intros v. apply post_ret. simpl. by apply post_exit_json.
  - intros e. by apply post_fail_json.
Qed.

(** C3 (as amended).  [device.close()] is called exactly once when the
    run completes normally (or fails in [close] itself), and is not
    called at all when the run ends anywhere else: a failure of the
    archive fetch, the load, the diff, the candidate archive or the final
    action exits the module without closing the session. *)
Theorem close_once_on_completion napalm_found a check_mode w :
  let o := (run napalm_found a check_mode w).1 in
  let t := (run napalm_found a check_mode w).2 in
  calls is_close t = (if reaches_close o then 1 else 0) ∧
  (∀ r, o = Exit (ExitJson r) → calls is_close t = 1).
Proof.
  cbv zeta.
  assert (post (main napalm_found a check_mode)
            (λ o t, calls is_close t = if reaches_close o then 1 else 0))
    as Hpost.
  { rewrite main_unfold. unfold run_resolved, proceed, session.
    repeat lazymatch goal with
      | |- post (close_step ≫= _) _ => fail
      | |- _ => peel close_frame ltac:(sat_auto; side)
      end.
    apply close_step_post. }
  apply post_run with (w := w) in Hpost. split; [exact Hpost|].
  intros r Hr. rewrite Hpost, Hr. done.
Qed.

(** ** C7: discard, never commit *)

Lemma discard_frame :
  framed (Forall (λ e, is_discard e = false))
    (λ x, reaches_install (Exit x : outcome unit) = false)
    (λ (o : outcome unit) t,
       calls is_discard t = if reaches_install o then 1 else 0).
Proof.
  repeat split.
  - intros t x Ht Hx. rewrite Hx. by apply calls_none.
  - intros t e Ht. by apply calls_none.
  - intros t1 t2 o Ht HQ. rewrite calls_app, HQ. by rewrite calls_none.
Qed.

Lemma install_step_discards check_mode commit_changes changed message :
  check_mode || negb (truthy commit_changes) = true →
  post (install_step check_mode commit_changes changed message)
    (λ o t, calls is_discard t = 1 ∧
            (o = Ret tt ∨
             ∃ s, o = Exit (FailJson ("cannot install config: " +:+ s)))).
Proof.
  intros Hd. unfold install_step. rewrite Hd.
  apply post_try, post_bind, post_perform.
  - intros v. apply post_ret. split; [done|by left].
  - intros e. apply post_fail_json. split; [done|right; by eexists].
Qed.

Lemma close_step_no_discard r :
  post (close_step;; exit_json r)
    (λ (o : outcome unit) t,
       calls is_discard t = 0 ∧ reaches_install o = true).
Proof.
  unfold close_step. apply post_bind, post_try, post_bind, post_perform.
  - intros v. apply post_ret. simpl. by apply post_exit_json.
  - intros e. by apply post_fail_json.
Qed.

(** C7 (as amended).  When [commit_changes] is false or check mode is
    on, [commit_config] is never called, and [discard_config] is called
    exactly once if the run gets as far as the final action (in
    particular whenever it completes); a run that fails at an earlier
    step, also after the candidate has been loaded, exits without
    discarding it. *)
Theorem discard_when_not_committing napalm_found a check_mode w :
  check_mode = true ∨ arg_commit_changes a = false →
  let o := (run napalm_found a check_mode w).1 in
  let t := (run napalm_found a check_mode w).2 in
  calls is_commit t = 0 ∧
  calls is_discard t = (if reaches_install o then 1 else 0) ∧
  (∀ r, o = Exit (ExitJson r) → calls is_discard t = 1).
Proof.
  intros Hd. cbv zeta.
  assert (post (main napalm_found a check_mode)
            (λ o t, calls is_discard t = if reaches_install o then 1 else 0))
    as Hpost.
  { rewrite main_unfold. unfold run_resolved, proceed, session.
    repeat lazymatch goal with
      | |- post (install_step _ _ _ _ ≫= _) _ => fail
      | |- _ => peel discard_frame ltac:(sat_auto; side)
      end.
    match goal with
    | H : resolved_params a !! "commit_changes" = Some _ |- _ =>
        rewrite resolved_commit_changes in H; injection H as <-
    end.
    eapply post_focal.
    { apply install_step_discards. simpl.
      destruct Hd as [->| ->]; [done|apply orb_true_r]. }
    intros [[]|e|x] t [Ht Ho].
    - eapply post_mono; [apply close_step_no_discard|].
      intros o' t' [Ht' Ho']. by rewrite calls_app, Ht, Ht', Ho'.
    - by destruct Ho as [?|[? ?]].
    - destruct Ho as [?|[s Hs]]; [done|]. injection Hs as ->.
      by rewrite Ht. }
  split.
  { apply calls_none.
    apply (post_run _ _ _ _ (main_never_commits napalm_found a check_mode)). }
  apply post_run with (w := w) in Hpost. split; [exact Hpost|].
  intros r Hr. rewrite Hpost, Hr. done.
Qed.

(** ** Path by path: the rules of [post], applied along the code *)

Ltac post_step :=
  cbv beta iota;
  lazymatch goal with
  | |- post (_ ≫= _) _ => apply post_bind
  | |- post (try_except _ _) _ => apply post_try
  | |- post (try_except_import _ _) _ => apply post_try_import
  | |- post (when ?c _) _ => unfold when at 1
  | |- post (mret _) _ => apply post_ret
  | |- post (raise _) _ => apply post_raise
  | |- post (fail_json _) _ => apply post_fail_json
  | |- post (exit_json _) _ => apply post_exit_json
  | |- post (perform _) _ => apply post_perform; intros ?
  | |- post (if ?b then _ else _) _ => destruct b eqn:?
  | |- post (match ?x with _ => _ end) _ => destruct x eqn:?
  end.

Ltac post_auto := unfold_steps; repeat post_step; cbv beta iota.

Lemma post_any {A : Type} (m : M A) : post m (λ _ _, True).
Proof. by intros w. Qed.

(** ** C8: an empty diff *)

Lemma compare_frame :
  framed (Forall (λ e, is_compare e = false))
    (λ x, ∀ r, x ≠ ExitJson r)
    (λ (o : outcome unit) t,
       empty_diff_returned t →
       ∀ r, o = Exit (ExitJson r) → changed r = false).
Proof.
  repeat split.
  - intros t x _ Hx _ r [= ->]. by destruct (Hx r).
  - by intros t e _ _ r.
  - intros t1 t2 o Ht HQ (v & Hin & Hv). apply HQ. exists v. split; [|done].
    apply elem_of_app in Hin as [Hin|Hin]; [|done].
    rewrite Forall_forall in Ht. by specialize (Ht _ Hin).
Qed.

Lemma empty_diff_head v t :
  Forall (λ e, is_compare e = false) t →
  empty_diff_returned (Ev device_compare_config (Returned v) :: t) →
  len_of v = Some 0.
Proof.
  intros Ht (v' & Hin & Hv). apply elem_of_cons in Hin as [[= ->]|Hin];
    [done|].
  rewrite Forall_forall in Ht. by specialize (Ht _ Hin).
Qed.

Lemma empty_diff_none t :
  Forall (λ e, is_compare e = false) t → ¬ empty_diff_returned t.
Proof.
  intros Ht (v & Hin & _). rewrite Forall_forall in Ht.
  by specialize (Ht _ Hin).
Qed.

(** What the diff step leaves in [changed]. *)
Lemma diff_step_post get_diffs diff_file :
  post (diff_step get_diffs diff_file)
    (λ o t,
       match o with
       | Ret (changed, diff) => empty_diff_returned t → changed = false
       | Exc _ => True
       | Exit x => ∀ r, x ≠ ExitJson r
       end).
Proof.
  post_auto; simpl; try done.
  all: try match goal with
           | H : _ && false = true |- _ => by rewrite andb_false_r in H
           end.
  all: intros Hd;
    match type of Hd with
    | empty_diff_returned nil =>
        destruct (empty_diff_none nil (List.Forall_nil _) Hd)
    | empty_diff_returned (_ :: ?t) =>
        assert (Forall (λ e, is_compare e = false) t) as Ht
          by (repeat constructor);
        pose proof (empty_diff_head _ _ Ht Hd) as Hv
    end.
  all: match goal with
       | H : len_of _ = Some ?n |- _ => rewrite H in Hv; by injection Hv as ->
       end.
Qed.

Lemma after_diff_no_compare check_mode commit_changes candidate_file message
    changed diff :
  sat (Forall (λ e, is_compare e = false))
    (λ x, ∀ r, x = ExitJson r → r = Result changed diff diff) (λ _, True)
    (candidate_step candidate_file;;
     install_step check_mode commit_changes changed message;;
     close_step;;
     exit_json (Result changed diff diff) : M unit).
Proof.
  sat_auto; try side. all: by intros r [= <-].
Qed.

(** C8.  In a run in which [compare_config] returns an empty diff, the
    result (if the run completes) says [changed = False], and
    [commit_config] is not called, whatever [commit_changes] and the
    check mode are.  ([compare_config] is only ever called when
    [get_diffs] is true.) *)
Theorem empty_diff_unchanged napalm_found a check_mode w :
  let o := (run napalm_found a check_mode w).1 in
  let t := (run napalm_found a check_mode w).2 in
  empty_diff_returned t →
  calls is_commit t = 0 ∧
  (∀ r, o = Exit (ExitJson r) → changed r = false).
Proof.
  cbv zeta. intros Hd. split.
  { apply calls_none.
    apply (post_run _ _ _ _ (main_never_commits napalm_found a check_mode)). }
  revert Hd.
  apply (post_run _ _ _
           (λ o t, empty_diff_returned t →
                   ∀ r, o = Exit (ExitJson r) → changed r = false)).
  clear w. rewrite main_unfold. unfold run_resolved, proceed, session.
  repeat lazymatch goal with
    | |- post (diff_step _ _ ≫= _) _ => fail
    | |- _ => peel compare_frame ltac:(sat_auto; side)
    end.
  eapply post_focal; [apply diff_step_post|].
  intros [[changed diff]|e|x] t Hdiff; [|done|].
  - eapply post_mono; [apply after_diff_no_compare|].
    intros o' t' [Ht' Ho'] Hd r ->. rewrite (Ho' r eq_refl). simpl.
    apply Hdiff. destruct Hd as (v & Hin & Hv). exists v. split; [|done].
    apply elem_of_app in Hin as [Hin|Hin]; [done|].
    rewrite Forall_forall in Ht'. by specialize (Ht' _ Hin).
  - intros _ r [= ->]. by destruct (Hdiff r).
Qed.

(** ** C9: no diff requested *)

Lemma no_diff_frame :
  framed (λ t, Forall (λ e, is_compare e = false) t ∧ fetch_writes t)
    (λ x, ∀ r, x ≠ ExitJson r)
    (λ (o : outcome unit) t,
       Forall (λ e, is_compare e = false) t ∧ fetch_writes t ∧
       ∀ r, o = Exit (ExitJson r) →
            changed r = true ∧ diff_prepared r = VNone ∧ msg r = VNone).
Proof.
  split; [|split].
  - intros t x [Hc Hf] Hx. split; [done|split; [done|]].
    intros r [= ->]. by destruct (Hx r).
  - intros t e [Hc Hf]. by split; [|split].
  - intros t1 t2 o [Hc1 Hf1] (Hc2 & Hf2 & Ho). split; [|split].
    + by apply Forall_app.
    + by apply fetch_writes_app.
    + exact Ho.
Qed.

(** The archive step and the candidate-archive step write what
    [get_config] has just returned. *)
Lemma fetch_and_save (X : exit → Prop) retrieve file m :
  (∀ s, X (FailJson s)) →
  sat (λ t, Forall (λ e, is_compare e = false) t ∧ fetch_writes t) X
    (λ _, True)
    (try_except
       (when (negb (is_None file))
          (r ← perform (device_get_config retrieve);
           running_config ← subscript_value r retrieve;
           save_to_file running_config file))
       (λ e, fail_json (m +:+ exn_str e))).
Proof.
  intros HX. unfold sat. post_auto; simpl; (split; [|done || apply HX]).
  all: split; [by repeat constructor|].
  all: try by repeat constructor.
  all: eapply fetch_writes_pair; [done|constructor].
Qed.

Ltac sat_fetch :=
  first [ apply fetch_and_save; side
        | sat_auto; solve [side | split; repeat constructor] ].

Lemma diff_step_skipped get_diffs diff_file :
  truthy get_diffs = false →
  post (diff_step get_diffs diff_file)
    (λ o t, t = [] ∧ o = Ret (true, VNone)).
Proof.
  intros Hg. unfold diff_step. rewrite Hg, andb_false_r.
  by post_auto.
Qed.

Lemma after_diff_fetch check_mode commit_changes candidate_file message
    changed diff :
  sat (λ t, Forall (λ e, is_compare e = false) t ∧ fetch_writes t)
    (λ x, ∀ r, x = ExitJson r → r = Result changed diff diff) (λ _, True)
    (candidate_step candidate_file;;
     install_step check_mode commit_changes changed message;;
     close_step;;
     exit_json (Result changed diff diff) : M unit).
Proof.
  eapply (sat_bind _ _ (λ _, True)).
  { apply fetch_and_save. intros s r. discriminate. }
  intros _ _. sat_auto; try solve [side | split; repeat constructor].
  all: by intros r [= <-].
Qed.

(** C9.  When [get_diffs] is false, [compare_config] is never called and
    every file that is written holds a configuration fetched by
    [get_config] (the archive and the candidate archive): no diff is
    written, whether or not [diff_file] is set.  If the run completes,
    it reports [changed = True] and no diff. *)
Theorem no_diff_requested napalm_found a check_mode w :
  arg_get_diffs a = Some false →
  let o := (run napalm_found a check_mode w).1 in
  let t := (run napalm_found a check_mode w).2 in
  calls is_compare t = 0 ∧
  fetch_writes t ∧
  (∀ r, o = Exit (ExitJson r) →
        changed r = true ∧ diff_prepared r = VNone ∧ msg r = VNone).
Proof.
  intros Hg. cbv zeta.
  assert (post (main napalm_found a check_mode)
            (λ o t,
               Forall (λ e, is_compare e = false) t ∧ fetch_writes t ∧
               ∀ r, o = Exit (ExitJson r) →
                    changed r = true ∧ diff_prepared r = VNone
                    ∧ msg r = VNone)) as Hpost.
  { rewrite main_unfold. unfold run_resolved, proceed, session.
    repeat lazymatch goal with
      | |- post (diff_step _ _ ≫= _) _ => fail
      | |- _ => peel no_diff_frame ltac:(sat_fetch)
      end.
    match goal with
    | H : resolved_params a !! "get_diffs" = Some _ |- _ =>
        rewrite resolved_get_diffs, Hg in H; injection H as <-
    end.
    eapply post_focal; [by apply diff_step_skipped|].
    intros o t [-> ->].
    eapply post_mono; [apply after_diff_fetch|].
    intros o' t' [[Hc Hf] Ho']. split; [done|split; [done|]].
    intros r [= ->]. by rewrite (Ho' r eq_refl). }
  apply post_run with (w := w) in Hpost as (Hc & Hf & Hr).
  split; [by apply calls_none|done].
Qed.

(** ** C5: neither [config] nor [config_file] *)

Lemma no_candidate_frame :
  framed (Forall (λ e, on_candidate e = false ∧ is_close e = false))
    (λ x, ∀ r, x ≠ ExitJson r)
    (λ (o : outcome unit) t,
       (∀ r, o ≠ Exit (ExitJson r)) ∧
       Forall (λ e, on_candidate e = false ∧ is_close e = false) t).
Proof.
  split; [|split].
  - intros t x Ht Hx. split; [|done]. intros r [= ->]. by destruct (Hx r).
  - intros t e Ht. by split.
  - intros t1 t2 o Ht1 [Ho Ht2]. split; [done|by apply Forall_app].
Qed.

Lemma load_step_nothing replace_config config_file config :
  truthy config_file = false →
  truthy config = false →
  post (load_step replace_config config_file config)
    (λ o t, t = [] ∧ o = Exit (FailJson no_config_msg)).
Proof.
  intros Hf Hc. unfold load_step. rewrite Hf, Hc, !andb_false_r.
  by post_auto.
Qed.

(** The paths of lines 247-254: an unset path is left as it is, and no
    path becomes or stops being [None]. *)
Lemma sat_expand_if_set_None (P : list event → Prop) `{!Closed P}
    (X : exit → Prop) (v : value) :
  sat P X (λ v', (truthy v = false → v' = v) ∧ is_None v' = is_None v)
    (expand_if_set v).
Proof.
  unfold expand_if_set, expand. destruct (truthy v) eqn:Ht;
    [|by apply sat_ret].
  destruct v; first [by apply sat_ret | by apply sat_raise].
Qed.

Ltac peel_path HF :=
  cbv zeta;
  lazymatch goal with
  | |- post (expand_if_set ?v ≫= _) _ =>
      eapply (post_prefix _ _
                (λ v', (truthy v = false → v' = v) ∧ is_None v' = is_None v)
                _ _ _ HF);
      [apply sat_expand_if_set_None; closed | intros ? [? ?]]
  end.

Lemma session_ready_nil a : ¬ session_ready a [].
Proof. by intros (?&?&?&?&?&?&?&?&?&?&?&?). Qed.

Lemma session_ready_succeeded a t :
  session_ready a t → Forall (λ e, succeeded e = true) t.
Proof.
  intros (?&?&?&?&?&?&?&?&?&rest&->&Hr). repeat (constructor; [done|]).
  unfold archived in Hr. destruct (is_None _).
  - subst. constructor.
  - destruct Hr as (?&?&?&?&->&_). by repeat constructor.
Qed.

Lemma session_ready_rest a e1 e2 e3 rest :
  session_ready a (e1 :: e2 :: e3 :: rest) →
  archived (is_None (py_get (resolved_params a) "archive_file")) rest.
Proof. by intros (?&?&?&?&?&?&?&?&?&?&[= _ _ _ <-]&?). Qed.

Lemma ready_frame a :
  framed (λ t, t = []) (λ x, x ≠ FailJson no_config_msg)
    (λ (o : outcome unit) t,
       o = Exit (FailJson no_config_msg) ↔ session_ready a t).
Proof.
  split; [|split].
  - intros t x -> Hx. split; [by intros [= ->]|].
    intros H. by apply session_ready_nil in H.
  - intros t e ->. split; [done|]. intros H. by apply session_ready_nil in H.
  - by intros t1 t2 o ->.
Qed.

Lemma raised_not_succeeded t c e t' :
  ¬ Forall (λ e, succeeded e = true) (t ++ Ev c (Raised e) :: t').
Proof.
  intros H. apply Forall_app in H as [_ H].
  apply Forall_cons in H as [H _]. discriminate H.
Qed.

(** Lines 266-269 fall through after one answered call, and end the run
    otherwise. *)
Lemma driver_step_shape dev_os :
  post (driver_step dev_os)
    (λ o t,
       match o with
       | Ret _ => ∃ cls, t = [Ev (get_network_driver dev_os) (Returned cls)]
       | Exc _ => ¬ Forall (λ e, succeeded e = true) t
       | Exit x =>
           x ≠ FailJson no_config_msg ∧
           ¬ Forall (λ e, succeeded e = true) t
       end).
Proof.
  unfold driver_step. apply post_try_import, post_bind, post_perform.
  - intros cls. apply post_ret. simpl. by eexists.
  - intros [[] s]; simpl; try (apply post_fail_json; split; [side|]);
      apply (raised_not_succeeded []).
Qed.

(** Lines 271-281 fall through after the driver is instantiated and the
    session opened, and end the run otherwise. *)
Lemma connect_step_shape hostname username password timeout optional_args :
  post (connect_step hostname username password timeout optional_args)
    (λ o t,
       match o with
       | Ret _ =>
           ∃ dev v,
             t = [Ev (network_driver hostname username password timeout
                        optional_args) (Returned dev);
                  Ev device_open (Returned v)]
       | Exc _ => False
       | Exit x =>
           x ≠ FailJson no_config_msg ∧
           ¬ Forall (λ e, succeeded e = true) t
       end).
Proof.
  post_auto; simpl; first [ by eexists _, _ | split; [side|] ].
  - apply (raised_not_succeeded [_]).
  - apply (raised_not_succeeded []).
Qed.

(** Lines 283-288 fall through exactly with the trace [archived]
    describes. *)
Lemma archive_step_shape archive_file :
  post (archive_step archive_file)
    (λ o t,
       match o with
       | Ret _ => archived (is_None archive_file) t
       | Exc _ => False
       | Exit x =>
           x ≠ FailJson no_config_msg ∧
           ¬ archived (is_None archive_file) t
       end).
Proof.
  unfold archive_step. destruct (is_None archive_file); simpl negb.
  { by post_auto. }
  post_auto; simpl; unfold archived.
  all: first [ by eexists _, _, _, _
             | split; [side|]; by intros (?&?&?&?&[=]&?) ].
Qed.

(** From the driver lookup on, a run without [config] and [config_file]
    ends with the message of line 300 exactly when every call of lines
    266-288 has been answered. *)
Lemma session_shape a check_mode dev_os hostname username password timeout
    optional_args config_file config commit_changes replace_config diff_file
    get_diffs archive_file candidate_file message :
  is_None archive_file = is_None (py_get (resolved_params a) "archive_file") →
  truthy config_file = false →
  truthy config = false →
  post (driver_step dev_os;;
        connect_step hostname username password timeout optional_args;;
        session check_mode config_file config commit_changes replace_config
          diff_file get_diffs archive_file candidate_file message)
    (λ o t, o = Exit (FailJson no_config_msg) ↔ session_ready a t).
Proof.
  intros Ha Hf Hc.
  eapply post_focal; [apply driver_step_shape|].
  intros [[]|e|x] t1 H1; cycle 1.
  { split; [done|]. by intros H%session_ready_succeeded. }
  { destruct H1 as [Hx H1]. split; [by intros [= ->]|].
    by intros H%session_ready_succeeded. }
  destruct H1 as [cls ->].
  eapply post_focal; [apply connect_step_shape|].
  intros [[]|e|x] t2 H2; [|done|].
  2:{ destruct H2 as [Hx H2]. split; [by intros [= ->]|].
      intros H%session_ready_succeeded. apply Forall_app in H as [_ H].
      done. }
  destruct H2 as (dev & v & ->). unfold session.
  eapply post_focal; [apply archive_step_shape|].
  intros [[]|e|x] t3 H3; [|done|].
  2:{ destruct H3 as [Hx H3]. split; [by intros [= ->]|].
      intros H. simpl in H. apply session_ready_rest in H.
      rewrite Ha in H3. done. }
  eapply post_focal; [by apply load_step_nothing|].
  intros o t [-> ->]. split; [|done]. intros _. rewrite app_nil_r. simpl.
  rewrite Ha in H3. by eexists _, _, _, _, _, _, _, _, _, _.
Qed.

(** C5 (as amended).  When neither [config] nor [config_file] is
    supplied, the run does not complete and no candidate is loaded,
    compared, discarded or committed, nor is the session closed.  The
    error of line 300 is not raised before the device is touched: it is
    the outcome exactly when the driver class has been looked up and
    instantiated, the session opened and, if [archive_file] is set, the
    running configuration fetched and written, every one of these calls
    having been answered. *)
Theorem no_config_fails_at_load napalm_found a check_mode w :
  truthy (py_get (resolved_params a) "config") = false →
  truthy (py_get (resolved_params a) "config_file") = false →
  let o := (run napalm_found a check_mode w).1 in
  let t := (run napalm_found a check_mode w).2 in
  (∀ r, o ≠ Exit (ExitJson r)) ∧
  Forall (λ e, on_candidate e = false ∧ is_close e = false) t ∧
  (o = Exit (FailJson no_config_msg) ↔ session_ready a t).
Proof.
  intros Hc Hf. cbv zeta.
  assert (post (main napalm_found a check_mode)
            (λ o t,
               (∀ r, o ≠ Exit (ExitJson r)) ∧
               Forall (λ e, on_candidate e = false ∧ is_close e = false) t))
    as Hpost.
  { rewrite main_unfold. unfold run_resolved, proceed, session.
    repeat lazymatch goal with
      | |- post (load_step _ _ _ ≫= _) _ => fail
      | |- _ => peel no_candidate_frame ltac:(sat_auto; side)
      end.
    repeat match goal with
      | H : resolved_params a !! _ = Some _ |- _ =>
          apply py_get_Some in H; try rewrite H in Hc; try rewrite H in Hf;
          clear H
      end.
    eapply post_focal.
    { apply load_step_nothing; [|done].
      match goal with H : truthy _ = false → _ = _ |- _ => by rewrite H end. }
    by intros o t [-> ->]. }
  assert (post (main napalm_found a check_mode)
            (λ o t, o = Exit (FailJson no_config_msg) ↔ session_ready a t))
    as Hready.
  { rewrite main_unfold. unfold run_resolved, proceed.
    repeat lazymatch goal with
      | |- post (driver_step _ ≫= _) _ => fail
      | |- _ =>
          first [ peel_path (ready_frame a)
                | peel (ready_frame a) ltac:(sat_auto; side) ]
      end.
    repeat match goal with
      | H : resolved_params a !! _ = Some ?v |- _ =>
          apply py_get_Some in H; subst v
      end.
    apply session_shape; [assumption| |exact Hc].
    match goal with
    | H : truthy _ = false → _ = _ |- _ => by rewrite (H Hf)
    end. }
  apply post_run with (w := w) in Hpost as [Ho Ht].
  split; [done|split; [done|]].
  apply (post_run _ _ _ _ Hready).
Qed.

(** ** C6: the identity check *)

Ltac key_cases Hk :=
  unfold identity_keys in Hk;
  repeat (apply elem_of_cons in Hk as [->|Hk]);
  [..|by apply elem_of_nil in Hk].

Lemma identity_frame a :
  framed (λ t, t = [])
    (λ x, x = FailJson no_napalm_msg)
    (identity_checked a).
Proof.
  split; [|split].
  - intros t x -> ->. split.
    + intros k Hk. key_cases Hk; by intros [=].
    + intros _. split; [done|by left].
  - intros t e ->. split.
    + by intros k _ [=].
    + intros _. split; [done|]. right. left. by eexists.
  - by intros t1 t2 o -> HQ.
Qed.

Lemma argument_check_post hostname username dev_os :
  post (argument_check
          [("hostname", hostname); ("username", username);
           ("dev_os", dev_os)])
    (λ o t,
       t = [] ∧
       match o with
       | Ret _ =>
           is_None hostname = false ∧ is_None username = false
           ∧ is_None dev_os = false
       | Exc _ => False
       | Exit x =>
           (x = FailJson ("hostname" +:+ " is required")
            ∧ is_None hostname = true) ∨
           (x = FailJson ("username" +:+ " is required")
            ∧ is_None username = true) ∨
           (x = FailJson ("dev_os" +:+ " is required")
            ∧ is_None dev_os = true)
       end).
Proof.
  post_auto; simpl; split; try done; tauto.
Qed.

Lemma after_check_other_messages check_mode params hostname username
    password timeout dev_os config_file config commit_changes
    replace_config diff_file get_diffs archive_file candidate_file message :
  sat (λ _, True)
    (λ x, ∀ k, k ∈ identity_keys → x ≠ FailJson (k +:+ " is required"))
    (λ _, True)
    (optional_args ← subscript params "optional_args";
     let optional_args :=
       if is_None optional_args then VDict ∅ else optional_args in
     driver_step dev_os;;
     connect_step hostname username password timeout optional_args;;
     session check_mode config_file config commit_changes replace_config
       diff_file get_diffs archive_file candidate_file message).
Proof.
  sat_auto; try side.
  all: intros k Hk; key_cases Hk; simpl; discriminate.
Qed.

(** C6 (as amended).  The check of lines 256-259 rejects [None], not
    emptiness.  A run ends with "<key> is required" only if that
    parameter is [None] after resolution, and then before any call; if
    one of the three is [None], no call is made at all and the run ends
    with that message unless it ended even earlier (napalm missing, or an
    uncaught exception of lines 215-254); so whenever the driver is
    looked up or a connection attempted, none of the three is [None].  An
    empty string is not [None] and passes the check. *)
Theorem identity_required napalm_found a check_mode w :
  let o := (run napalm_found a check_mode w).1 in
  let t := (run napalm_found a check_mode w).2 in
  identity_checked a o t ∧ (t ≠ [] → identity_unset a = false).
Proof.
  cbv zeta.
  assert (post (main napalm_found a check_mode) (identity_checked a))
    as Hpost.
  { rewrite main_unfold. unfold run_resolved, proceed.
    repeat lazymatch goal with
      | |- post (argument_check _ ≫= _) _ => fail
      | |- _ => peel (identity_frame a) ltac:(sat_auto; side)
      end.
    repeat match goal with
      | H : resolved_params a !! _ = Some _ |- _ =>
          apply py_get_Some in H
      end.
    eapply post_focal; [apply argument_check_post|].
    intros [[]|e|x] t [-> Hc]; [| done |].
    - destruct Hc as (Hh & Hu & Hd).
      assert (identity_unset a = false) as Hunset.
      { unfold identity_unset.
        repeat match goal with
          | H : py_get (resolved_params a) _ = _ |- _ => rewrite H; clear H
          end.
        by rewrite Hh, Hu, Hd. }
      eapply post_mono; [apply after_check_other_messages|].
      intros o' t' [_ Ho']. split; [|by rewrite Hunset].
      intros k Hk ->. by destruct (Ho' k Hk).
    - assert (∃ k, k ∈ identity_keys ∧
                   is_None (py_get (resolved_params a) k) = true ∧
                   x = FailJson (k +:+ " is required")) as (k & Hk & Hn & ->).
      { unfold identity_keys.
        destruct Hc as [[-> Hn]|[[-> Hn]|[-> Hn]]];
          [exists "hostname"|exists "username"|exists "dev_os"];
          (split; [set_solver|]); split; try done;
          match goal with
          | H : py_get (resolved_params a) ?k = _
            |- is_None (py_get (resolved_params a) ?k) = true =>
              by rewrite H
          end. }
      split.
      + intros k' Hk' [= Heq]. split; [|done].
        key_cases Hk'; key_cases Hk; by try discriminate Heq.
      + intros _. split; [done|]. right. right. by exists k. }
  apply post_run with (w := w) in Hpost. split; [done|].
  intros Ht. destruct Hpost as [_ H2].
  destruct (identity_unset a); [|done]. by destruct (H2 eq_refl).
Qed.

(** ** C1: the parameter that is not declared *)

Lemma no_log_values_post provider params :
  post (no_log_values provider params)
    (λ o t, t = [] ∧ (o = Ret tt ∨ ∃ s, o = Exc (Exn AttributeError s))).
Proof.
  post_auto; simpl; split; try done; (by left) || (right; by eexists).
Qed.

Ltac read_declared a :=
  lazymatch goal with
  | |- post (subscript (resolved_params a) ?k ≫= _) _ =>
      let H := fresh in
      destruct (resolved_declared a k) as [? H];
      [apply list_elem_of_In; simpl; tauto|];
      apply post_bind; unfold subscript at 1; rewrite H; apply post_ret;
      clear H; cbv beta iota
  end.

Lemma lookup_fails check_mode a :
  bundle a !! "commit_comment" = None →
  post (run_resolved check_mode (resolved_params a))
    (λ o t, t = [] ∧ o = Exc (Exn KeyError "'commit_comment'")).
Proof.
  intros Hb. unfold run_resolved. repeat read_declared a.
  apply post_bind. unfold subscript at 1.
  rewrite resolved_commit_comment, Hb. by apply post_raise.
Qed.

(** C1 (as amended).  When the provider bundle has no ["commit_comment"]
    key, no invocation gets beyond line 246: it ends before any call to
    the driver, the device or the file system and before the identity
    check, with [KeyError: 'commit_comment'] (or earlier still: napalm
    missing, or the [AttributeError] of lines 215-217).  A bundle that
    has the key makes the lookup succeed: the merge loop copies it into
    [module.params]. *)
Theorem commit_comment_undeclared napalm_found a check_mode w :
  bundle a !! "commit_comment" = None →
  let o := (run napalm_found a check_mode w).1 in
  let t := (run napalm_found a check_mode w).2 in
  t = [] ∧
  ((napalm_found = false ∧ o = Exit (FailJson no_napalm_msg)) ∨
   (∃ s, o = Exc (Exn AttributeError s)) ∨
   o = Exc (Exn KeyError "'commit_comment'")).
Proof.
  intros Hb. cbv zeta.
  apply (post_run _ _ _
           (λ o t, t = [] ∧
              ((napalm_found = false ∧ o = Exit (FailJson no_napalm_msg)) ∨
               (∃ s, o = Exc (Exn AttributeError s)) ∨
               o = Exc (Exn KeyError "'commit_comment'")))).
  rewrite main_unfold. apply post_bind.
  destruct napalm_found; simpl.
  - apply post_ret. eapply post_focal; [apply no_log_values_post|].
    intros [[]|e|x] t [-> Ho].
    + eapply post_mono; [by apply lookup_fails|].
      intros o' t' [-> ->]. split; [done|]. by right; right.
    + destruct Ho as [?|[s [= ->]]]; [done|].
      split; [done|]. right; left. by eexists.
    + by destruct Ho as [?|[s ?]].
  - apply post_fail_json. split; [done|]. by left.
Qed.

(** * Further properties of the module *)

(** ** What the resolution does with each kind of parameter *)

(** The host name is taken, in this order, from the [hostname] argument,
    the bundle's [hostname], the bundle's [host] (lines 227-231): the first
    of them that is truthy, and the bundle's [host] if none is. *)
Theorem hostname_precedence a :
  resolved_params a !! "hostname" =
    Some (py_or (of_str (arg_hostname a))
            (py_or (py_get (bundle a) "hostname") (py_get (bundle a) "host"))).
Proof.
  rewrite resolved_lookup by done. unfold allow_host.
  rewrite lookup_insert_eq.
  assert (py_get (AnsibleModule_params a) "hostname" = of_str (arg_hostname a))
    as -> by (vm_compute; reflexivity).
  by destruct (arg_hostname a).
Qed.

(** [commit_changes], [get_diffs] and [replace_config] are booleans once
    [AnsibleModule] has typed them, and a boolean is never replaced by the
    bundle's value: these three cannot be set through the provider. *)
Theorem booleans_not_from_provider a :
  resolved_params a !! "commit_changes" = Some (VBool (arg_commit_changes a)) ∧
  resolved_params a !! "get_diffs"
    = Some (VBool (default true (arg_get_diffs a))) ∧
  resolved_params a !! "replace_config"
    = Some (VBool (default false (arg_replace_config a))).
Proof.
  split; [|split].
  - apply resolved_commit_changes.
  - apply resolved_get_diffs.
  - apply resolved_replace_config.
Qed.

(** The merge loop touches the keys of the bundle only, and removes
    nothing: a key the bundle does not have keeps its entry, and every key
    of [module.params] is still a key afterwards. *)
Theorem merge_provider_frame params provider k :
  (provider !! k = None → merge_provider params provider !! k = params !! k) ∧
  (is_Some (params !! k) → is_Some (merge_provider params provider !! k)).
Proof.
  split.
  - intros Hk. by rewrite merge_provider_lookup, Hk.
  - apply merge_provider_is_Some.
Qed.

(** Any key of the provider bundle that [argument_spec] declares neither
    as a parameter nor as an alias (the one alias is [host], line 187)
    becomes an entry of [module.params]; this is the only way
    [module.params["commit_comment"]] (line 246) can exist. *)
Theorem undeclared_keys_from_provider a k :
  k ∉ declared → k ≠ "host" →
  resolved_params a !! k = bundle a !! k.
Proof.
  intros Hd _.
  assert (k ≠ "hostname") as Hh
    by (intros ->; apply Hd; unfold declared; set_solver).
  rewrite resolved_lookup.
  - rewrite allow_host_lookup_ne by done.
    assert (AnsibleModule_params a !! k = None) as Hnone.
    { apply not_elem_of_list_to_map_1. simpl.
      intros Hin. apply Hd. unfold declared. exact Hin. }
    unfold py_get. rewrite Hnone. simpl.
    by destruct (bundle a !! k).
  - intros ->. apply Hd. unfold declared. set_solver.
Qed.

(** ** What a run never does, and what it does first *)

(** [commit_config] is never called, in any run: line 328 calls the commit
    comment, a parameter value, before the device method. *)
Theorem never_commits napalm_found a check_mode w :
  calls is_commit (run napalm_found a check_mode w).2 = 0.
Proof.
  apply calls_none.
  apply (post_run _ _ _ _ (main_never_commits napalm_found a check_mode)).
Qed.

(** ** The reported diff *)

Lemma reported_frame :
  framed (λ _, True) (λ x, ∀ r, x ≠ ExitJson r)
    (λ (o : outcome unit) t,
       ∀ r, o = Exit (ExitJson r) →
         ∃ n, Ev device_compare_config (Returned (diff_prepared r)) ∈ t ∧
              msg r = diff_prepared r ∧
              len_of (diff_prepared r) = Some n ∧
              changed r = bool_decide (0 < n)).
Proof.
  split; [|split].
  - intros t x _ Hx r [= ->]. by destruct (Hx r).
  - by intros t e _ r.
  - intros t1 t2 o _ HQ r Hr. destruct (HQ r Hr) as (n & Hin & Hrest).
    exists n. split; [|done]. apply elem_of_app. by right.
Qed.

Lemma diff_step_computed get_diffs diff_file :
  truthy get_diffs = true →
  post (diff_step get_diffs diff_file)
    (λ o t,
       match o with
       | Ret (changed, diff) =>
           ∃ n, Ev device_compare_config (Returned diff) ∈ t ∧
                len_of diff = Some n ∧ changed = bool_decide (0 < n)
       | Exc _ => True
       | Exit x => ∀ r, x ≠ ExitJson r
       end).
Proof.
  intros Hg. unfold diff_step. rewrite Hg.
  post_auto; simpl; try done.
  all: eexists; split; [apply list_elem_of_In; simpl; eauto|done].
Qed.

(** When a diff is requested and the run completes, what it reports is
    what the device answered: [diff.prepared] and [msg] are the value
    [compare_config] returned, and [changed] says whether that value is
    non-empty (lines 305-307 and 337). *)
Theorem report_is_device_diff napalm_found a check_mode w r :
  default true (arg_get_diffs a) = true →
  (run napalm_found a check_mode w).1 = Exit (ExitJson r) →
  ∃ n, Ev device_compare_config (Returned (diff_prepared r))
         ∈ (run napalm_found a check_mode w).2 ∧
       msg r = diff_prepared r ∧
       len_of (diff_prepared r) = Some n ∧
       changed r = bool_decide (0 < n).
Proof.
  intros Hg. revert r.
  apply (post_run _ _ _
           (λ o t, ∀ r, o = Exit (ExitJson r) →
              ∃ n, Ev device_compare_config (Returned (diff_prepared r)) ∈ t ∧
                   msg r = diff_prepared r ∧
                   len_of (diff_prepared r) = Some n ∧
                   changed r = bool_decide (0 < n))).
  rewrite main_unfold. unfold run_resolved, proceed, session.
  repeat lazymatch goal with
    | |- post (diff_step _ _ ≫= _) _ => fail
    | |- _ => peel reported_frame ltac:(sat_auto; side)
    end.
  match goal with
  | H : resolved_params a !! "get_diffs" = Some _ |- _ =>
      rewrite resolved_get_diffs, Hg in H; injection H as <-
  end.
  eapply post_focal; [by apply diff_step_computed|].
  intros [[changed diff]|e|x] t Hd; [|done|].
  - destruct Hd as (n & Hin & Hlen & Hch).
    eapply post_mono; [apply after_diff_no_compare|].
    intros o' t' [_ Ho'] r ->. rewrite (Ho' r eq_refl). simpl.
    exists n. split; [|done]. apply elem_of_app. by left.
  - intros r [= ->]. by destruct (Hd r).
Qed.

(** ** How the candidate is loaded *)

Lemma load_frame b :
  framed (Forall (λ e, is_load e = false)) (λ _, True)
    (λ (o : outcome unit) t,
       calls is_load t ≤ 1 ∧
       Forall (λ e, is_load e = true → is_replace e = b) t).
Proof.
  assert (∀ t, Forall (λ e, is_load e = false) t →
               Forall (λ e, is_load e = true → is_replace e = b) t) as Himpl.
  { intros t Ht. eapply Forall_impl; [exact Ht|]. by intros e -> [=]. }
  split; [|split].
  - intros t x Ht _. rewrite calls_none by done. split; [lia|by apply Himpl].
  - intros t e Ht. rewrite calls_none by done. split; [lia|by apply Himpl].
  - intros t1 t2 o Ht1 [Hn Ht2]. rewrite calls_app, calls_none by done.
    split; [done|]. apply Forall_app. split; [by apply Himpl|done].
Qed.

Lemma load_step_post b config_file config :
  post (load_step (VBool b) config_file config)
    (λ o t, calls is_load t ≤ 1 ∧
            Forall (λ e, is_load e = true → is_replace e = b) t).
Proof.
  unfold load_step. simpl. destruct b; simpl.
  all: post_auto; simpl; split; first [lia | by repeat constructor].
Qed.

Lemma after_load_no_load check_mode commit_changes diff_file get_diffs
    candidate_file message :
  sat (Forall (λ e, is_load e = false)) (λ _, True) (λ _, True)
    ('(changed, diff) ← diff_step get_diffs diff_file;
     candidate_step candidate_file;;
     install_step check_mode commit_changes changed message;;
     close_step;;
     exit_json (Result changed diff diff) : M unit).
Proof. sat_auto; side. Qed.

(** A run loads at most one candidate, and loads it with replace semantics
    exactly when [replace_config] is true, with merge semantics otherwise
    (lines 291-298). *)
Theorem load_semantics napalm_found a check_mode w :
  let t := (run napalm_found a check_mode w).2 in
  calls is_load t ≤ 1 ∧
  Forall (λ e, is_load e = true →
               is_replace e = default false (arg_replace_config a)) t.
Proof.
  cbv zeta.
  apply (post_run _ _ _
           (λ _ t, calls is_load t ≤ 1 ∧
              Forall (λ e, is_load e = true →
                is_replace e = default false (arg_replace_config a)) t)).
  rewrite main_unfold. unfold run_resolved, proceed, session.
  repeat lazymatch goal with
    | |- post (load_step _ _ _ ≫= _) _ => fail
    | |- _ => peel (load_frame (default false (arg_replace_config a)))
                ltac:(sat_auto; side)
    end.
  match goal with
  | H : resolved_params a !! "replace_config" = Some _ |- _ =>
      rewrite resolved_replace_config in H; injection H as <-
  end.
  eapply post_focal; [apply load_step_post|].
  intros [[]|e|x] t [Hn Ht]; [|done..].
  eapply post_mono; [apply after_load_no_load|].
  intros o' t' [Ht' _]. rewrite calls_app, (calls_none _ t') by done.
  split; [lia|]. apply Forall_app. split; [done|].
  eapply Forall_impl; [exact Ht'|]. by intros e -> [=].
Qed.

(** ** The session is opened first *)

Lemma opened_first_frame :
  framed (Forall (λ e, on_device e = false)) (λ _, True)
    (λ (_ : outcome unit) t, opened_first t).
Proof.
  split; [|split].
  - intros t x Ht _. by left.
  - intros t e Ht. by left.
  - intros t1 t2 o Ht1 [Ht2|(t0 & v & t' & -> & Ht0)].
    + left. by apply Forall_app.
    + right. exists (t1 ++ t0), v, t'. split; [by rewrite <-app_assoc|].
      by apply Forall_app.
Qed.

Lemma connect_step_opens hostname username password timeout optional_args :
  post (connect_step hostname username password timeout optional_args)
    (λ o t,
       match o with
       | Ret _ => ∃ t0 v, t = t0 ++ [Ev device_open (Returned v)] ∧
                          Forall (λ e, on_device e = false) t0
       | _ => Forall (λ e, on_device e = false) t
       end).
Proof.
  post_auto; simpl; try by repeat constructor.
  eexists [_], _. split; [done|by repeat constructor].
Qed.

(** No method of the device is called before [open] has succeeded
    (lines 271-281 come before every other use of [device]). *)
Theorem session_opened_first napalm_found a check_mode w :
  opened_first (run napalm_found a check_mode w).2.
Proof.
  apply (post_run _ _ _ (λ _ t, opened_first t)).
  rewrite main_unfold. unfold run_resolved, proceed.
  repeat lazymatch goal with
    | |- post (connect_step _ _ _ _ _ ≫= _) _ => fail
    | |- _ => peel opened_first_frame ltac:(sat_auto; side)
    end.
  eapply post_focal; [apply connect_step_opens|].
  intros [[]|e|x] t Hc; [|by left..].
  destruct Hc as (t0 & v & -> & Ht0).
  eapply post_mono; [apply post_any|]. intros o' t' _.
  right. exists t0, v, t'. split; [by rewrite <-app_assoc|done].
Qed.

(** ** Failures stop the run and are reported under their step *)

Lemma fail_stop_exit {A B : Type} U U' (x : exit) t :
  fail_stop U (Exit x : outcome A) t → fail_stop U' (Exit x : outcome B) t.
Proof.
  intros [?|(t1 & c & e & ? & ? & ?)]; [by left|].
  right. by exists t1, c, e.
Qed.

Lemma fail_stop_exc {A B : Type} U (e0 : exn) t :
  fail_stop U (Exc e0 : outcome A) t → fail_stop U (Exc e0 : outcome B) t.
Proof.
  intros [?|(t1 & c & e & ? & ? & ?)]; [by left|].
  right. by exists t1, c, e.
Qed.

Lemma fail_stop_ret {A : Type} U (a : A) t :
  fail_stop U (Ret a) t → Forall (λ e, succeeded e = true) t.
Proof. by intros [?|(t1 & c & e & ? & ? & [])]. Qed.

Lemma fail_stop_app {A : Type} U (o : outcome A) t1 t2 :
  Forall (λ e, succeeded e = true) t1 →
  fail_stop U o t2 → fail_stop U o (t1 ++ t2).
Proof.
  intros H1 [H2|(t & c & e & -> & Ht & Hb)].
  - left. by apply Forall_app.
  - right. exists (t1 ++ t), c, e. split; [by rewrite <-app_assoc|].
    split; [by apply Forall_app|done].
Qed.

Section Guarded.
Context (U : call → exn → Prop).

Lemma guarded_ret {A : Type} (a : A) : post (mret a) (fail_stop U).
Proof. apply post_ret. by left. Qed.

Lemma guarded_raise {A : Type} (e : exn) :
  post (raise e : M A) (fail_stop U).
Proof. apply post_raise. by left. Qed.

Lemma guarded_fail_json {A : Type} (m : string) :
  post (fail_json m : M A) (fail_stop U).
Proof. apply post_fail_json. by left. Qed.

Lemma guarded_exit_json {A : Type} (r : result) :
  post (exit_json r : M A) (fail_stop U).
Proof. apply post_exit_json. by left. Qed.

Lemma guarded_perform (c : call) :
  (∀ e, U c e) → post (perform c) (fail_stop U).
Proof.
  intros Hc. apply post_perform.
  - intros v. left. by repeat constructor.
  - intros e. right. exists [], c, e. by repeat split.
Qed.

Lemma guarded_bind {A B : Type} (m : M A) (k : A → M B) :
  post m (fail_stop U) → (∀ a, post (k a) (fail_stop U)) →
  post (m ≫= k) (fail_stop U).
Proof.
  intros Hm Hk. apply post_bind. eapply post_mono; [exact Hm|].
  intros [a|e|x] t Ht.
  - apply fail_stop_ret in Ht. eapply post_mono; [apply Hk|].
    intros o' t' Ht'. by apply fail_stop_app.
  - by apply (fail_stop_exc (B := B)) in Ht.
  - by apply (fail_stop_exit (B := B) U U) in Ht.
Qed.

Lemma guarded_when (c : bool) (body : M unit) :
  (c = true → post body (fail_stop U)) → post (when c body) (fail_stop U).
Proof. destruct c; [by intros H; apply H|intros _; apply guarded_ret]. Qed.

Lemma guarded_py_call_bind {B : Type} (f arg : value) (k : value → M B) :
  post (py_call f arg ≫= k) (fail_stop U).
Proof. apply post_bind, post_raise. by left. Qed.

(** A step: whatever is raised inside is reported under the step's
    message, provided the calls inside are those of the step. *)
Lemma guarded_try {A : Type} (m : string) (body : M A) :
  post body (fail_stop (λ c _, step_message c m)) →
  post (try_except body (λ e, fail_json (m +:+ exn_str e))) (fail_stop U).
Proof.
  intros Hb. apply post_try. eapply post_mono; [exact Hb|].
  intros [a|e0|x] t Ht.
  - left. by apply fail_stop_ret in Ht.
  - apply post_fail_json. rewrite app_nil_r.
    destruct Ht as [?|(t1 & c & e & -> & Ht1 & [-> Hm])]; [by left|].
    right. exists t1, c, e. repeat split; [done|]. by exists m.
  - by apply (fail_stop_exit (B := A) _ U) in Ht.
Qed.

Lemma guarded_try_import {A : Type} (m : string) (body : M A) :
  post body (fail_stop (λ c _, step_message c m)) →
  (∀ c e, step_message c m → exn_cls e ≠ ModuleImportError → U c e) →
  post (try_except_import body (λ e, fail_json (m +:+ exn_str e)))
    (fail_stop U).
Proof.
  intros Hb HU. apply post_try_import. eapply post_mono; [exact Hb|].
  intros [a|[cls s]|x] t Ht.
  - left. by apply fail_stop_ret in Ht.
  - destruct cls.
    4: { apply post_fail_json. rewrite app_nil_r.
         destruct Ht as [?|(t1 & c & e & -> & Ht1 & [<- Hm])]; [by left|].
         right. exists t1, c, (Exn ModuleImportError s).
         repeat split; [done|]. by exists m. }
    all: destruct Ht as [?|(t1 & c & e & -> & Ht1 & [<- Hm])]; [by left|].
    all: right; eexists t1, c, _; repeat split; [done..|]; by apply HU.
  - by apply (fail_stop_exit (B := A) _ U) in Ht.
Qed.
End Guarded.

Ltac guarded_step :=
  lazymatch goal with
  | |- post (py_call _ _ ≫= _) (fail_stop _) => apply guarded_py_call_bind
  | |- post (_ ≫= _) (fail_stop _) => apply guarded_bind; [|intros ?]
  | |- post (try_except _ _) (fail_stop _) => apply guarded_try
  | |- post (try_except_import _ _) (fail_stop _) =>
      apply guarded_try_import
  | |- post (when _ _) (fail_stop _) => apply guarded_when; intros ?
  | |- post (mret _) (fail_stop _) => apply guarded_ret
  | |- post (raise _) (fail_stop _) => apply guarded_raise
  | |- post (fail_json _) (fail_stop _) => apply guarded_fail_json
  | |- post (exit_json _) (fail_stop _) => apply guarded_exit_json
  | |- post (perform _) (fail_stop _) => apply guarded_perform; intros ?
  | |- post (if ?b then _ else _) (fail_stop _) => destruct b
  | |- post (match ?x with _ => _ end) (fail_stop _) => destruct x
  end.

Lemma main_guarded napalm_found a check_mode :
  post (main napalm_found a check_mode) (fail_stop uncaught).
Proof.
  unfold_steps. repeat guarded_step.
  all: try solve [reflexivity | left; reflexivity | right; reflexivity].
  intros c e Hc He. split; [|done].
  destruct c; simpl in Hc; try discriminate Hc; [by eexists|].
  by destruct Hc.
Qed.

(** Nothing is called after a call has failed, and the failure is what the
    module reports: either every call of the run succeeded, or all but the
    last did and the run ends with [fail_json] under the message of the
    step the failed call belongs to, followed by [str(e)]; only an
    exception of [get_network_driver] other than [ModuleImportError]
    escapes uncaught.  In particular a run that completes has seen no
    failure. *)
Theorem failures_stop_the_run napalm_found a check_mode w :
  let o := (run napalm_found a check_mode w).1 in
  let t := (run napalm_found a check_mode w).2 in
  fail_stop uncaught o t ∧
  (∀ r, o = Exit (ExitJson r) → Forall (λ e, succeeded e = true) t).
Proof.
  cbv zeta.
  pose proof (post_run _ _ _ _ (main_guarded napalm_found a check_mode) w)
    as Hfs.
  split; [exact Hfs|]. intros r Hr. rewrite Hr in Hfs.
  by destruct Hfs as [?|(t1 & c & e & _ & _ & [])].
Qed.

(** ** What the driver is given *)

Lemma driver_frame (Q : event → Prop) :
  framed (Forall (λ e, is_driver e = false)) (λ _, True)
    (λ (_ : outcome unit) t, Forall (λ e, is_driver e = true → Q e) t).
Proof.
  assert (∀ t, Forall (λ e, is_driver e = false) t →
               Forall (λ e, is_driver e = true → Q e) t) as Himpl.
  { intros t Ht. eapply Forall_impl; [exact Ht|]. by intros e -> [=]. }
  split; [|split].
  - intros t x Ht _. by apply Himpl.
  - intros t e Ht. by apply Himpl.
  - intros t1 t2 o Ht1 Ht2. apply Forall_app. split; [by apply Himpl|done].
Qed.

Lemma connect_step_arguments (Q : event → Prop) hostname username password
    timeout optional_args :
  (∀ r, Q (Ev (network_driver hostname username password timeout
                 optional_args) r)) →
  post (connect_step hostname username password timeout optional_args)
    (λ _ t, Forall (λ e, is_driver e = true → Q e) t).
Proof.
  intros HQ. post_auto; simpl.
  all: repeat (constructor; [first [by intros [=] | intros _; apply HQ]|]).
  all: constructor.
Qed.

Lemma after_connect_no_driver check_mode config_file config commit_changes
    replace_config diff_file get_diffs archive_file candidate_file message :
  sat (Forall (λ e, is_driver e = false)) (λ _, True) (λ _, True)
    (session check_mode config_file config commit_changes replace_config
       diff_file get_diffs archive_file candidate_file message).
Proof. sat_auto; side. Qed.

(** The driver is instantiated with the resolved parameters, passed on as
    they are: host name, user name, password and timeout, and the
    [optional_args] dict, [{}] when that is [None] (lines 261-278). *)
Theorem driver_gets_resolved_parameters napalm_found a check_mode w :
  Forall (λ e, is_driver e = true →
     ∃ r, e = Ev (network_driver
                    (py_get (resolved_params a) "hostname")
                    (py_get (resolved_params a) "username")
                    (py_get (resolved_params a) "password")
                    (py_get (resolved_params a) "timeout")
                    (if is_None (py_get (resolved_params a) "optional_args")
                     then VDict ∅
                     else py_get (resolved_params a) "optional_args")) r)
    (run napalm_found a check_mode w).2.
Proof.
  set (Q := λ e : event, ∃ r, e = Ev (network_driver
                    (py_get (resolved_params a) "hostname")
                    (py_get (resolved_params a) "username")
                    (py_get (resolved_params a) "password")
                    (py_get (resolved_params a) "timeout")
                    (if is_None (py_get (resolved_params a) "optional_args")
                     then VDict ∅
                     else py_get (resolved_params a) "optional_args")) r).
  apply (post_run _ _ _ (λ _ t, Forall (λ e, is_driver e = true → Q e) t)).
  rewrite main_unfold. unfold run_resolved, proceed.
  repeat lazymatch goal with
    | |- post (connect_step _ _ _ _ _ ≫= _) _ => fail
    | |- _ => peel (driver_frame Q) ltac:(sat_auto; side)
    end.
  repeat match goal with
    | H : resolved_params a !! _ = Some _ |- _ => apply py_get_Some in H
    end.
  eapply post_focal.
  { apply (connect_step_arguments Q). intros r. exists r. unfold Q.
    repeat match goal with
      | H : py_get (resolved_params a) _ = _ |- _ => rewrite H; clear H
      end.
    reflexivity. }
  intros [[]|e|x] t Ht; [|done..].
  eapply post_mono; [apply after_connect_no_driver|].
  intros o' t' [Ht' _]. apply Forall_app. split; [done|].
  eapply Forall_impl; [exact Ht'|]. by intros e -> [=].
Qed.

(** ** A provider whose [optional_args] is not a dict *)

(** Lines 215-217 call [.get] on [provider["optional_args"]] whenever it is
    truthy: a non-empty string or list there ends the module with an
    uncaught [AttributeError], before any parameter is resolved and before
    anything is called. *)
Theorem provider_optional_args_must_be_dict a check_mode w v :
  bundle a !! "optional_args" = Some v →
  truthy v = true →
  (∀ d, v ≠ VDict d) →
  run true a check_mode w =
    (Exc (Exn AttributeError
            ("'" +:+ type_name v +:+ "' object has no attribute 'get'")), []).
Proof.
  intros Hv Ht Hd. unfold run. rewrite main_unfold.
  rewrite provider_of_params. unfold no_log_values, no_log_param.
  assert (py_get (bundle a) "optional_args" = v) as ->
    by (unfold py_get; by rewrite Hv).
  rewrite Ht. destruct v; try discriminate Ht; try reflexivity.
  by destruct (Hd d).
Qed.

(** ** What is written to files *)

Lemma saved_from_device_app t1 t2 :
  saved_from_device t1 → saved_from_device t2 → saved_from_device (t1 ++ t2).
Proof.
  induction 1; intros H2; simpl; [done| | |].
  - apply saved_other; auto.
  - eapply saved_config; eauto.
  - apply saved_diff; auto.
Qed.

#[local] Instance saved_from_device_closed : Closed saved_from_device.
Proof. split; [constructor | apply saved_from_device_app]. Qed.

Lemma fetch_step_saves retrieve file m :
  sat saved_from_device (λ _, True) (λ _, True)
    (try_except
       (when (negb (is_None file))
          (r ← perform (device_get_config retrieve);
           running_config ← subscript_value r retrieve;
           save_to_file running_config file))
       (λ e, fail_json (m +:+ exn_str e))).
Proof.
  unfold sat. post_auto; simpl; (split; [|done]).
  all: try by repeat constructor.
  all: eapply saved_config; [done|constructor].
Qed.

Lemma diff_step_saves get_diffs diff_file :
  sat saved_from_device (λ _, True) (λ _, True)
    (diff_step get_diffs diff_file).
Proof.
  unfold sat. post_auto; simpl; (split; [|done]).
  all: try by repeat constructor.
  all: try match goal with
           | H : _ && false = true |- _ => by rewrite andb_false_r in H
           end.
  all: apply saved_diff; constructor.
Qed.

Ltac sat_saved :=
  unfold main, run_resolved, proceed, session, no_log_values, no_log_param,
    driver_step, connect_step, load_step, install_step, close_step,
    expand_if_set, expand, method_get, subscript;
  cbn [argument_check];
  repeat first [ apply fetch_step_saves | apply diff_step_saves | sat_step ].

(** Whatever a run writes to a file is what the device has just returned,
    unchanged: a configuration fetched by [get_config] (the archive of
    lines 285-286 and the candidate archive of lines 318-319) or the diff
    computed by [compare_config] (line 312). *)
Theorem files_hold_device_answers napalm_found a check_mode w :
  saved_from_device (run napalm_found a check_mode w).2.
Proof.
  apply (post_run _ _ _ (λ _ t, saved_from_device t)).
  assert (sat saved_from_device (λ _, True) (λ _, True)
            (main napalm_found a check_mode)) as Hsat.
  { sat_saved; try done; by repeat constructor. }
  eapply post_mono; [exact Hsat|]. by intros o t [Ht _].
Qed.

End Workflow.

(** * The samples, run on the lab device *)

(** [lab_run load diff a check_mode]: the invocation [a] on the lab device,
    with napalm installed. *)
Abbreviation lab_run load diff a check_mode :=
  (run (lab_device load diff) no_expansion no_expansion true a check_mode tt)
  (only parsing).

(** C1, counterexample.  With a ["commit_comment"] key in the provider
    bundle the lookup of line 246 succeeds and the run goes on: here, in
    check mode, to its normal end. *)
Lemma commit_comment_lookup_succeeds :
  resolved_params scenario_commented !! "commit_comment"
    = Some (VStr "install x") ∧
  lab_run done_ok (Returned (VStr "+x=true")) scenario_commented true =
    (Exit (ExitJson (Result true (VStr "+x=true") (VStr "+x=true"))),
     [Ev (get_network_driver (VStr "ios")) done_ok;
      Ev (network_driver (VStr "r1") (VStr "admin") VNone (VInt 60)
            (VDict ∅)) done_ok;
      Ev device_open done_ok;
      Ev (device_load_merge_candidate (config_kw (VStr "set x true")))
        done_ok;
      Ev device_compare_config (Returned (VStr "+x=true"));
      Ev device_discard_config done_ok;
      Ev device_close done_ok]).
Proof. split; vm_compute; reflexivity. Qed.

Lemma commit_comment_undeclared_witness :
  bundle scenario !! "commit_comment" = None ∧
  (lab_run done_ok (Returned (VStr "+x=true")) scenario false).2 = [].
Proof.
  split; [reflexivity|].
  apply (commit_comment_undeclared (lab_device done_ok
           (Returned (VStr "+x=true"))) no_expansion no_expansion
           true scenario false tt).
  reflexivity.
Defined.

(** C2.  The scenario of the specification does not commit.  As the
    specification gives it, the run stops at line 246 with [KeyError]
    before anything is called.  With a commit comment supplied the only way
    the code allows, through the provider bundle, the candidate is loaded
    and compared, and then line 328 calls the comment string:
    [commit_config] is not called and the run fails. *)
Theorem scenario_does_not_commit :
  lab_run done_ok (Returned (VStr "+x=true")) scenario false =
    (Exc (Exn KeyError "'commit_comment'"), []) ∧
  lab_run done_ok (Returned (VStr "+x=true")) scenario_commented false =
    (Exit (FailJson "cannot install config: 'str' object is not callable"),
     [Ev (get_network_driver (VStr "ios")) done_ok;
      Ev (network_driver (VStr "r1") (VStr "admin") VNone (VInt 60)
            (VDict ∅)) done_ok;
      Ev device_open done_ok;
      Ev (device_load_merge_candidate (config_kw (VStr "set x true")))
        done_ok;
      Ev device_compare_config (Returned (VStr "+x=true"))]).
Proof. split; vm_compute; reflexivity. Qed.

(** C3, counterexample.  The session is opened, the load fails, and the
    module exits without [device.close()]. *)
Lemma load_failure_leaves_session_open :
  let r := lab_run (Raised (Exn OtherException "syntax error")) done_ok
             scenario_commented false in
  Ev device_open done_ok ∈ r.2 ∧
  r.1 = Exit (FailJson "cannot load config: syntax error") ∧
  calls is_close r.2 = 0.
Proof.
  cbv zeta. split; [|split]; [|vm_compute; reflexivity..].
  apply list_elem_of_In. vm_compute. tauto.
Qed.

Lemma close_once_on_completion_witness :
  let r := lab_run done_ok (Returned (VStr "+x=true")) scenario_commented
             true in
  calls is_close r.2 = 1.
Proof.
  cbv zeta.
  apply (proj2 (close_once_on_completion
                  (lab_device done_ok (Returned (VStr "+x=true")))
                  no_expansion no_expansion true scenario_commented true tt)
           (Result true (VStr "+x=true") (VStr "+x=true"))).
  vm_compute. reflexivity.
Defined.

(** C4, counterexample.  The caller leaves [replace_config] at [False],
    the bundle says [True]: the resolved value is still [False]. *)
Lemma explicit_false_not_overridden :
  let a := invocation (Some "admin") (Some "set x true") true (Some false)
             (Some true) None None (Some defaults_bundle) in
  py_get (AnsibleModule_params a) "replace_config" = VBool false ∧
  allow_host (bundle a) !! "replace_config" = Some (VBool true) ∧
  resolved_params a !! "replace_config" = Some (VBool false).
Proof. cbv zeta. repeat split; vm_compute; reflexivity. Qed.

Lemma explicit_precedence_witness :
  let a := invocation (Some "admin") (Some "set x true") true (Some false)
             (Some true) None None (Some defaults_bundle) in
  resolved_params a !! "get_diffs" = Some (VBool true) ∧
  resolved_params a !! "replace_config" = Some (VBool false).
Proof.
  cbv zeta. split.
  - apply (proj1 (explicit_precedence
                    (invocation (Some "admin") (Some "set x true") true
                       (Some false) (Some true) None None
                       (Some defaults_bundle))
                    "get_diffs" (VBool false) eq_refl
                    ltac:(discriminate))); [discriminate|reflexivity].
  - apply (proj1 (proj2 (explicit_precedence
                           (invocation (Some "admin") (Some "set x true")
                              true (Some false) (Some true) None None
                              (Some defaults_bundle))
                           "replace_config" (VBool true) eq_refl
                           ltac:(discriminate)))); reflexivity.
Defined.


(** C5, counterexample.  Neither [config] nor [config_file], and an
    [archive_file]: the driver is instantiated, the session opened and
    the archive fetched and written before the error of line 300. *)
Lemma no_config_after_device_calls :
  lab_run done_ok done_ok
    (invocation (Some "admin") None true None None None (Some "running.bak")
       (Some comment_bundle)) false =
    (Exit (FailJson no_config_msg),
     [Ev (get_network_driver (VStr "ios")) done_ok;
      Ev (network_driver (VStr "r1") (VStr "admin") VNone (VInt 60)
            (VDict ∅)) done_ok;
      Ev device_open done_ok;
      Ev (device_get_config "running") (Returned (VDict lab_configs));
      Ev (file_write (VStr "running.bak") (VStr "hostname lab")) done_ok]).
Proof. vm_compute. reflexivity. Qed.

Lemma no_config_fails_at_load_witness :
  let a := invocation (Some "admin") None true None None None
             (Some "running.bak") (Some comment_bundle) in
  Forall (λ e, on_candidate e = false ∧ is_close e = false)
    (lab_run done_ok done_ok a false).2 ∧
  session_ready a (lab_run done_ok done_ok a false).2.
Proof.
  cbv zeta.
  pose proof (no_config_fails_at_load (lab_device done_ok done_ok)
                no_expansion no_expansion true
                (invocation (Some "admin") None true None None None
                   (Some "running.bak") (Some comment_bundle))
                false tt eq_refl eq_refl) as H.
  cbv zeta in H. destruct H as (_ & Ht & Hr).
  split; [exact Ht|]. apply Hr. vm_compute. reflexivity.
Defined.

(** C6, counterexample.  An empty [username] passes the check: the driver
    is instantiated with it and the run completes. *)
Lemma empty_username_accepted :
  let a := invocation (Some "") (Some "set x true") false None None None None
             (Some comment_bundle) in
  resolved_params a !! "username" = Some (VStr "") ∧
  lab_run done_ok (Returned (VStr "+x=true")) a false =
    (Exit (ExitJson (Result true (VStr "+x=true") (VStr "+x=true"))),
     [Ev (get_network_driver (VStr "ios")) done_ok;
      Ev (network_driver (VStr "r1") (VStr "") VNone (VInt 60) (VDict ∅))
        done_ok;
      Ev device_open done_ok;
      Ev (device_load_merge_candidate (config_kw (VStr "set x true")))
        done_ok;
      Ev device_compare_config (Returned (VStr "+x=true"));
      Ev device_discard_config done_ok;
      Ev device_close done_ok]).
Proof. cbv zeta. split; vm_compute; reflexivity. Qed.

Lemma identity_required_witness :
  let a := invocation None (Some "set x true") false None None None None
             (Some comment_bundle) in
  identity_unset a = true ∧
  (lab_run done_ok done_ok a false).2 = [].
Proof.
  cbv zeta. split; [vm_compute; reflexivity|].
  apply (proj1 (identity_required (lab_device done_ok done_ok) no_expansion
                  no_expansion true _ false tt)).
  vm_compute. reflexivity.
Defined.

(** C7, counterexample.  [commit_changes] is false, the candidate is
    loaded, [compare_config] fails: the module exits and the candidate is
    not discarded. *)
Lemma diff_failure_leaves_candidate :
  lab_run done_ok (Raised (Exn OtherException "not supported"))
    (invocation (Some "admin") (Some "set x true") false None None None None
       (Some comment_bundle)) false =
    (Exit (FailJson "cannot diff config: not supported"),
     [Ev (get_network_driver (VStr "ios")) done_ok;
      Ev (network_driver (VStr "r1") (VStr "admin") VNone (VInt 60)
            (VDict ∅)) done_ok;
      Ev device_open done_ok;
      Ev (device_load_merge_candidate (config_kw (VStr "set x true")))
        done_ok;
      Ev device_compare_config
        (Raised (Exn OtherException "not supported"))]).
Proof. vm_compute. reflexivity. Qed.

Lemma discard_when_not_committing_witness :
  let r := lab_run done_ok (Returned (VStr "+x=true"))
             (invocation (Some "admin") (Some "set x true") false None None
                None None (Some comment_bundle)) false in
  calls is_commit r.2 = 0 ∧ calls is_discard r.2 = 1.
Proof.
  cbv zeta.
  destruct (discard_when_not_committing
              (lab_device done_ok (Returned (VStr "+x=true"))) no_expansion
              no_expansion true
              (invocation (Some "admin") (Some "set x true") false None None
                 None None (Some comment_bundle)) false tt)
    as (Hc & Hd & _); [by right|].
  split; [exact Hc|exact Hd].
Defined.

Lemma empty_diff_unchanged_witness :
  let r := lab_run done_ok (Returned (VStr "")) scenario_commented false in
  empty_diff_returned r.2 ∧ calls is_commit r.2 = 0 ∧
  r.1 = Exit (ExitJson (Result false (VStr "") (VStr ""))).
Proof.
  cbv zeta.
  assert (empty_diff_returned
            (lab_run done_ok (Returned (VStr "")) scenario_commented false).2)
    as Hd.
  { exists (VStr ""). split; [|reflexivity].
    apply list_elem_of_In. vm_compute. tauto. }
  split; [exact Hd|]. split; [|vm_compute; reflexivity].
  exact (proj1 (empty_diff_unchanged (lab_device done_ok (Returned (VStr "")))
                  no_expansion no_expansion true scenario_commented false tt
                  Hd)).
Defined.

Lemma no_diff_requested_witness :
  let r := lab_run done_ok (Returned (VStr "+x=true"))
             (invocation (Some "admin") (Some "set x true") false None
                (Some false) (Some "x.diff") None (Some comment_bundle))
             false in
  calls is_compare r.2 = 0 ∧ calls is_file_write r.2 = 0 ∧
  r.1 = Exit (ExitJson (Result true VNone VNone)).
Proof.
  cbv zeta. split; [|split; vm_compute; reflexivity].
  apply (no_diff_requested (lab_device done_ok (Returned (VStr "+x=true")))
           no_expansion no_expansion true _ false tt).
  reflexivity.
Defined.

Lemma defaults_win_over_provider_witness :
  let a := invocation (Some "admin") (Some "set x true") true None None None
             None (Some defaults_bundle) in
  resolved_params a !! "timeout" = Some (VInt 60) ∧
  resolved_params a !! "get_diffs" = Some (VBool true) ∧
  resolved_params a !! "replace_config" = Some (VBool false).
Proof.
  cbv zeta. apply defaults_win_over_provider; reflexivity.
Defined.

Lemma merge_provider_frame_witness :
  merge_provider {[ "config" := VStr "set x true" ]} defaults_bundle
    !! "config"
    = ({[ "config" := VStr "set x true" ]} : gmap string value) !! "config".
Proof.
  apply (proj1 (merge_provider_frame {[ "config" := VStr "set x true" ]}
                  defaults_bundle "config")).
  reflexivity.
Defined.

Lemma undeclared_keys_from_provider_witness :
  resolved_params scenario_commented !! "commit_comment"
    = bundle scenario_commented !! "commit_comment".
Proof.
  apply undeclared_keys_from_provider; [|discriminate].
  apply (bool_decide_unpack _). vm_compute. exact I.
Defined.

Lemma report_is_device_diff_witness :
  ∃ n, Ev device_compare_config (Returned (VStr "+x=true"))
         ∈ (lab_run done_ok (Returned (VStr "+x=true")) scenario_commented
              true).2 ∧
       VStr "+x=true" = VStr "+x=true" ∧
       len_of (VStr "+x=true") = Some n ∧
       true = bool_decide (0 < n).
Proof.
  apply (report_is_device_diff (lab_device done_ok (Returned (VStr "+x=true")))
           no_expansion no_expansion true scenario_commented true tt
           (Result true (VStr "+x=true") (VStr "+x=true")));
    [reflexivity|vm_compute; reflexivity].
Defined.

Lemma failures_stop_the_run_witness :
  Forall (λ e, succeeded e = true)
    (lab_run done_ok (Returned (VStr "+x=true")) scenario_commented true).2.
Proof.
  apply (proj2 (failures_stop_the_run
                  (lab_device done_ok (Returned (VStr "+x=true")))
                  no_expansion no_expansion true scenario_commented true tt)
           (Result true (VStr "+x=true") (VStr "+x=true"))).
  vm_compute. reflexivity.
Defined.

Lemma provider_optional_args_must_be_dict_witness :
  lab_run done_ok done_ok
    (invocation (Some "admin") (Some "set x true") true None None None None
       (Some {[ "optional_args" := VStr "port=22" ]})) false =
    (Exc (Exn AttributeError "'str' object has no attribute 'get'"), []).
Proof.
  apply (provider_optional_args_must_be_dict (lab_device done_ok done_ok)
           no_expansion no_expansion _ false tt (VStr "port=22"));
    [reflexivity|reflexivity|discriminate].
Defined.
